(** * Runtime estimator: a shallow embedding of
      [torch/distributed/_tools/runtime_estimator.py]

    The development follows the source file top to bottom:
    - the module-level constants ([_PYTORCH_MIN_ALLOCATE], [_VIEW_OPS],
      [_CREATE_OPS], [_IGNORE_OPS]);
    - the three estimation strategies of class [RuntimeEstimator]
      ([_benchmark_estimate], [_roofline_estimate], [_learned_estimate])
      with their helpers;
    - the dispatch hook [__torch_dispatch__] and the context-manager
      protocol ([__call__], [__enter__], [__exit__]).

    Conventions.
    - Python [float] times are modelled by exact rationals ([Qc]); rounding
      is not modelled.  A float division raises [ZeroDivisionError] on a
      zero divisor, as in Python.
    - A Python exception is a value of [exn]; a computation that may raise
      has type [result A].
    - Operator overload packets ([aten.mm], ...) are identified by their
      qualified name, a [string].
    - Pytrees are kept flattened: an argument list or an output is the list
      of its leaves, which is what [pytree.tree_flatten] hands to the code. *)

From Stdlib Require Import ZArith QArith Qcanon Lia Ascii.
From stdpp Require Import base option list gmap sets strings.

Open Scope string_scope.
Open Scope Z_scope.
Open Scope list_scope.
Open Scope stdpp_scope.

(** ** Exceptions and fallible computations *)

Inductive exn : Type :=
  | TypeError
  | AssertionError
  | NotImplementedError
  | AttributeError
  | ZeroDivisionError
  | KeyError
  | RuntimeError
  | ValueError.

#[global] Instance exn_eq_dec : EqDecision exn.
Proof. solve_decision. Defined.

Inductive result (A : Type) : Type :=
  | Ok (a : A)
  | Raise (e : exn).
Arguments Ok {A} a.
Arguments Raise {A} e.

#[global] Instance result_ret : MRet result := fun A a => Ok a.
#[global] Instance result_bind : MBind result := fun A B k m =>
  match m with
  | Ok a => k a
  | Raise e => Raise e
  end.

Definition returns {A} (m : result A) : Prop := exists a, m = Ok a.

(** [assert cond] *)
Definition py_assert (cond : bool) : result unit :=
  if cond then Ok tt else Raise AssertionError.

(** ** Times *)

Definition time := Qc.

Definition Z2Qc (z : Z) : Qc := Q2Qc (inject_Z z).

(** Python [a / b] on floats. *)
Definition fdiv (a b : Qc) : result Qc :=
  if decide (b = 0%Qc) then Raise ZeroDivisionError else Ok (a / b)%Qc.

(** Python [max(a, b)]: the first argument unless the second is larger. *)
Definition py_max (a b : Qc) : Qc :=
  if Qclt_le_dec a b then b else a.

Definition c_1e15 : Qc := Z2Qc (10 ^ 15).
Definition c_1e9 : Qc := Z2Qc (10 ^ 9).
Definition c_1e6 : Qc := Z2Qc (10 ^ 6).
(** [factor = 0.75] *)
Definition factor : Qc := Q2Qc (3 # 4).

(** ** Tensors and operators *)

Inductive dtype : Type :=
  | float16 | bfloat16 | float32 | float64
  | int32 | int64 | bool_ | complex64.

#[global] Instance dtype_eq_dec : EqDecision dtype.
Proof. solve_decision. Defined.

(** [RuntimeEstimator._float_types] *)
Definition _float_types : list dtype := [float16; bfloat16; float32; float64].

(** A tensor as the estimator observes it.  [obj_id] is Python's [id(t)];
    [storage] is [t._typed_storage()._cdata]; [nbytes] is
    [t.untyped_storage().nbytes()]; [fake_mode] is the id of the
    [FakeTensorMode] owning a fake tensor, [None] for a real tensor. *)
Record Tensor : Type := mkTensor {
  obj_id : positive;
  storage : positive;
  t_dtype : dtype;
  shape : list Z;
  nbytes : Z;
  is_sparse : bool;
  is_coalesced : bool;
  fake_mode : option positive
}.

#[global] Instance Tensor_eq_dec : EqDecision Tensor.
Proof. solve_decision. Defined.

(** A pytree leaf: a tensor, or anything else (scalars, [None], ...). *)
Inductive leaf : Type :=
  | LTensor (t : Tensor)
  | LScalar (z : Z).

#[global] Instance leaf_eq_dec : EqDecision leaf.
Proof. solve_decision. Defined.

(** [isinstance(x, torch.Tensor)], keeping the tensor. *)
Definition as_tensor (x : leaf) : option Tensor :=
  match x with
  | LTensor t => Some t
  | LScalar _ => None
  end.

Inductive Tag : Type :=
  | inplace_view
  | pointwise
  | view_copy
  | nondeterministic_seeded.

#[global] Instance Tag_eq_dec : EqDecision Tag.
Proof. solve_decision. Defined.

(** An [OpOverload]: [func._overloadpacket] and [func.tags]. *)
Record OpOverload : Type := mkOp {
  _overloadpacket : string;
  overload_name : string;
  tags : list Tag
}.

(** One intercepted call of [func] on [args] and [kwargs]; [kwargs] may be
    [None]. *)
Record Invocation : Type := mkInv {
  func : OpOverload;
  args : list leaf;
  kwargs : option (list (string * leaf))
}.

(** [kwargs if kwargs else {}] and [kwargs or {}] *)
Definition kwargs_or_empty (kw : option (list (string * leaf))) : list (string * leaf) :=
  match kw with
  | Some l => l
  | None => []
  end.

(** [pytree.tree_flatten((args, kwargs))]: positional leaves, then keyword
    leaves. *)
Definition tree_flatten_args (a : list leaf) (kw : list (string * leaf)) : list leaf :=
  a ++ map snd kw.

(** ** Module-level constants *)

(** [_PYTORCH_MIN_ALLOCATE], from the integer value of the environment
    variable [PYTORCH_NO_CUDA_MEMORY_CACHING] (0 when unset). *)
Definition _PYTORCH_MIN_ALLOCATE (no_cuda_memory_caching : Z) : Z :=
  if (no_cuda_memory_caching =? 0)%Z then 2 ^ 9 else 1.

Definition _VIEW_OPS : gset string :=
  list_to_set
    [ "aten.lift_fresh"; "aten.t"; "aten.transpose"; "aten.view";
      "aten.detach"; "aten._unsafe_view"; "aten.split"; "aten.adjoint";
      "aten.as_strided"; "aten.diagonal"; "aten.expand"; "aten.expand_as";
      "aten.movedim"; "aten.permute"; "aten.select"; "aten.squeeze";
      "aten.mT"; "aten.mH"; "aten.real"; "aten.imag"; "aten.view_as";
      "aten.unflatten"; "aten.unfold"; "aten.unbind"; "aten.unsqueeze";
      "aten.vsplit"; "aten.hsplit"; "aten.split_with_sizes";
      "aten.swapaxes"; "aten.swapdims"; "aten.chunk" ].

Definition _CREATE_OPS : gset string :=
  list_to_set
    [ "aten.randint"; "aten.randn"; "aten.rand"; "aten.randn_like";
      "aten.rand_like"; "aten.randint_like"; "aten.arange";
      "aten.ones_like"; "aten.zeros_like" ].

Definition _IGNORE_OPS : gset string := _VIEW_OPS ∪ _CREATE_OPS.

(** ** The environment of the estimator

    Everything the source obtains from collaborators that are not part of
    the file: the device queries, the symbolic and the real execution of an
    operator, the device timer and the ambient fake mode. *)

(** An entry of [flop_registry]: called on the flattened operands and on
    the output ([out_val]); it may raise (shape assertions). *)
Abbreviation FlopFormula := (list leaf -> list leaf -> result Z).

(** An entry of [_LEARNED_OPS]: called on the output precision, the gflops,
    the flattened operands and the output; returns milliseconds. *)
Abbreviation Predictor := (dtype -> Qc -> list leaf -> list leaf -> result Qc).

Record World : Type := mkWorld {
  (** [torch.cuda.is_available()] *)
  cuda_is_available : bool;
  (** [get_gpu_dram_gbps()] *)
  get_gpu_dram_gbps : Qc;
  (** [get_device_tflops(dtype)] *)
  get_device_tflops : dtype -> Qc;
  (** [int(os.environ.get("PYTORCH_NO_CUDA_MEMORY_CACHING", 0))] *)
  no_cuda_memory_caching : Z;
  (** [active_fake_mode()]: the id of the live [FakeTensorMode], if any *)
  active_fake_mode : option positive;
  (** the operator run under the fake mode (symbolic execution) *)
  run_fake : OpOverload -> list leaf -> list (string * leaf) -> result (list leaf);
  (** the operator run under [no_dispatch()] on real operands *)
  run_real : OpOverload -> list leaf -> result (list leaf);
  (** [torch.rand_like] / [torch.ones_like] on the fake device: the
      exception it raises, if any (out of memory, ...) *)
  alloc_failure : Tensor -> option exn;
  (** [start_event.elapsed_time(end_event)] for the timed iterations *)
  elapsed_time : OpOverload -> list leaf -> Qc;
  (** the timing formulas that [_learned_estimate_predictor] registers,
      seen through the calling convention of [flop_registry] *)
  timing_formula : string -> FlopFormula
}.

(** The process-wide mutable state: class attributes of [RuntimeEstimator],
    module globals, and a log of what was done on the device. *)
Record Proc : Type := mkProc {
  (** [RuntimeEstimator.fake_mode]; [None] while never assigned *)
  cls_fake_mode : option positive;
  (** [RuntimeEstimator._no_fallback_kernel] *)
  _no_fallback_kernel : gset string;
  (** [torch.utils.flop_counter.flop_registry] *)
  flop_registry : gmap string FlopFormula;
  (** [_LEARNED_OPS] *)
  _LEARNED_OPS : gmap string Predictor;
  (** real tensors allocated by [to_real_tensor], most recent first *)
  realized : list Tensor;
  (** number of real kernel launches so far *)
  kernel_runs : nat;
  (** lower bound on the identity of the next object created *)
  next_id : positive
}.

(** ** Python call binding

    A function object has a list of declared positional parameters; a call
    binds the actual arguments to them one by one and raises [TypeError]
    when the counts differ (none of the functions modelled this way has
    defaults or star parameters).  Accessing a [@classmethod] through the
    class yields a bound method: the class is passed as an extra first
    argument. *)

Inductive pyval : Type :=
  | VCls
  | VLeaves (l : list leaf)
  | VPacket (p : string)
  | VKwargs (kw : list (string * leaf))
  | VDtypes (s : list dtype).

Record PyFunction (A : Type) : Type := mkFun {
  params : list string;
  body : list (string * pyval) -> result A
}.
Arguments mkFun {A} params body.
Arguments params {A} _.
Arguments body {A} _.

Definition bind_params (ps : list string) (actuals : list pyval)
  : result (list (string * pyval)) :=
  if decide (length actuals = length ps) then Ok (zip ps actuals)
  else Raise TypeError.

(** [f(a1, ..., an)] on the plain function object *)
Definition call_function {A} (f : PyFunction A) (actuals : list pyval) : result A :=
  env ← bind_params (params f) actuals; body f env.

(** [cls.f(a1, ..., an)] where [f] is wrapped by [@classmethod] *)
Definition call_classmethod {A} (f : PyFunction A) (actuals : list pyval) : result A :=
  call_function f (VCls :: actuals).

Fixpoint env_get (env : list (string * pyval)) (x : string) : result pyval :=
  match env with
  | [] => Raise KeyError
  | (y, v) :: env' => if decide (x = y) then Ok v else env_get env' x
  end.

(** iterating over a value as a flat list of leaves *)
Definition iter_leaves (v : pyval) : result (list leaf) :=
  match v with
  | VLeaves l => Ok l
  | _ => Raise TypeError
  end.

(** ** Memory transfer time *)

(** [math.ceil(a / b)] on integers *)
Definition ceil_div (a b : Z) : Z := - ((- a) / b).

(** [get_num_bytes(t)] *)
Definition get_num_bytes (w : World) (t : Tensor) : Z :=
  let num_bytes := nbytes t in
  let mem_consumed :=
    ceil_div num_bytes (_PYTORCH_MIN_ALLOCATE (no_cuda_memory_caching w))
    * _PYTORCH_MIN_ALLOCATE (no_cuda_memory_caching w) in
  mem_consumed.

(** [sum(get_num_bytes(t) for t in l if isinstance(t, torch.Tensor))] *)
Definition sum_num_bytes (w : World) (l : list leaf) : Z :=
  foldr Z.add 0 (map (get_num_bytes w) (omap as_tensor l)).

(** [_get_transfer_time]: declared with the two parameters
    [(flat_args_kwargs, flat_outs)] under [@classmethod]; the result is in
    nanoseconds. *)
Definition _get_transfer_time (w : World) : PyFunction Qc :=
  mkFun ["flat_args_kwargs"; "flat_outs"] (fun env =>
    let gpu_memory_bandwidth := get_gpu_dram_gbps w in
    flat_args_kwargs ← env_get env "flat_args_kwargs" ≫= iter_leaves;
    let read_bytes := sum_num_bytes w flat_args_kwargs in
    flat_outs ← env_get env "flat_outs" ≫= iter_leaves;
    let write_bytes := sum_num_bytes w flat_outs in
    let counted_bytes := read_bytes + write_bytes in
    transfer_time ← fdiv (Z2Qc counted_bytes) gpu_memory_bandwidth;
    Ok transfer_time).

(** ** Roofline strategy *)

(** The set comprehension
    [{t.dtype for t in flat_outs if isinstance(t, torch.Tensor) and t.dtype in cls._float_types}],
    as a duplicate-free list. *)
Definition float_out_dtypes (flat_outs : list leaf) : list dtype :=
  remove_dups
    (filter (fun d => d ∈ _float_types) (map t_dtype (omap as_tensor flat_outs))).

(** [s.pop()] on a set *)
Definition set_pop (s : list dtype) : result dtype :=
  match s with
  | d :: _ => Ok d
  | [] => Raise KeyError
  end.

(** The nested function [get_compute_time] of [_roofline_estimate]; the
    result is in nanoseconds. *)
Definition get_compute_time (w : World) (p : Proc) (func_packet : string)
    (flat_args_kwargs : list leaf) (out : list leaf) (out_dtypes : list dtype)
  : result Qc :=
  match flop_registry p !! func_packet with
  | Some flop_count_func =>
      _ ← py_assert (bool_decide (length out_dtypes = 1%nat));
      dtype ← set_pop out_dtypes;
      let peak_gpu_flops := (get_device_tflops w dtype * c_1e15)%Qc in
      let peak_empirical_flops := (factor * peak_gpu_flops)%Qc in
      flops ← flop_count_func flat_args_kwargs out;
      let flop_count := (Z2Qc flops / Z2Qc 2)%Qc in
      q ← fdiv flop_count peak_empirical_flops;
      let compute_time := (q * c_1e9)%Qc in
      Ok compute_time
  | None => Ok 0%Qc
  end.

(** [_roofline_estimate(func, args, kwargs)] *)
Definition _roofline_estimate (w : World) (p : Proc) (inv : Invocation)
  : Proc * result (list leaf * Qc) :=
  (p,
   _ ← py_assert (cuda_is_available w);
   let kwargs := kwargs_or_empty (kwargs inv) in
   out ← run_fake w (func inv) (args inv) kwargs;
   let func_packet := _overloadpacket (func inv) in
   if decide (func_packet ∉ _IGNORE_OPS) then
     let flat_args_kwargs := tree_flatten_args (args inv) kwargs in
     let flat_outs := out in
     transfer_time ←
       call_classmethod (_get_transfer_time w)
         [VLeaves flat_args_kwargs; VLeaves flat_outs];
     let out_dtypes := float_out_dtypes flat_outs in
     compute_time ←
       get_compute_time w p func_packet flat_args_kwargs out out_dtypes;
     let op_time := (py_max transfer_time compute_time / c_1e6)%Qc in
     Ok (out, op_time)
   else Ok (out, 0%Qc)).

(** ** Computations over the process state

    [M A] threads the process state through a computation that may raise;
    the state reached when an exception is raised is kept, since Python does
    not roll back mutations. *)

Definition M (A : Type) : Type := Proc -> Proc * result A.

#[global] Instance M_ret : MRet M := fun A a p => (p, Ok a).
#[global] Instance M_bind : MBind M := fun A B k m p =>
  match m p with
  | (p', Ok a) => k a p'
  | (p', Raise e) => (p', Raise e)
  end.

Definition lift {A} (r : result A) : M A := fun p => (p, r).
Definition throw {A} (e : exn) : M A := fun p => (p, Raise e).
Definition get_proc : M Proc := fun p => (p, Ok p).
Definition modify_proc (f : Proc -> Proc) : M unit := fun p => (f p, Ok tt).

(** [try: m  except e: handler]: the handler runs in the state the
    exception left behind; other exceptions pass through. *)
Definition try_except {A} (m : M A) (e : exn) (handler : M A) : M A := fun p =>
  match m p with
  | (p', Ok a) => (p', Ok a)
  | (p', Raise e') => if decide (e' = e) then handler p' else (p', Raise e')
  end.

(** [cls.fake_mode]: the class attribute is only annotated, so reading it
    before the first assignment raises [AttributeError]. *)
Definition get_cls_fake_mode : M positive := fun p =>
  match cls_fake_mode p with
  | Some fm => (p, Ok fm)
  | None => (p, Raise AttributeError)
  end.

Definition set_realized (l : list Tensor) (p : Proc) : Proc :=
  mkProc (cls_fake_mode p) (_no_fallback_kernel p) (flop_registry p)
         (_LEARNED_OPS p) l (kernel_runs p) (next_id p).

Definition set_kernel_runs (n : nat) (p : Proc) : Proc :=
  mkProc (cls_fake_mode p) (_no_fallback_kernel p) (flop_registry p)
         (_LEARNED_OPS p) (realized p) n (next_id p).

Definition set_no_fallback_kernel (s : gset string) (p : Proc) : Proc :=
  mkProc (cls_fake_mode p) s (flop_registry p)
         (_LEARNED_OPS p) (realized p) (kernel_runs p) (next_id p).

Definition set_flop_registry (r : gmap string FlopFormula) (p : Proc) : Proc :=
  mkProc (cls_fake_mode p) (_no_fallback_kernel p) r
         (_LEARNED_OPS p) (realized p) (kernel_runs p) (next_id p).

Definition set_next_id (i : positive) (p : Proc) : Proc :=
  mkProc (cls_fake_mode p) (_no_fallback_kernel p) (flop_registry p)
         (_LEARNED_OPS p) (realized p) (kernel_runs p) i.

Definition set_cls_fake_mode (fm : option positive) (p : Proc) : Proc :=
  mkProc fm (_no_fallback_kernel p) (flop_registry p)
         (_LEARNED_OPS p) (realized p) (kernel_runs p) (next_id p).

(** ** Benchmark strategy *)

(** The identity of the next object the interpreter creates: beyond the
    identity and storage of every live operand and of every object created
    before, so that a new object never shares its [id] or storage with a
    live one. *)
Definition max_id (l : list Tensor) : positive :=
  foldr (fun t acc => Pos.max (Pos.max (obj_id t) (storage t)) acc) 1%positive l.

Definition fresh_id (live : list Tensor) : M positive := fun p =>
  let i := Pos.max (next_id p) (Pos.succ (max_id live)) in
  (set_next_id (Pos.succ i) p, Ok i).

(** [torch.rand_like(e, device=e.fake_device)] for a floating [e],
    [torch.ones_like(e, device=e.fake_device)] otherwise, followed by
    [out._coalesced_(e.is_coalesced())] for a sparse [e]: a new real tensor
    with the metadata of [e].  The fill is not part of the model. *)
Definition real_like (w : World) (live : list Tensor) (e : Tensor) : M Tensor :=
  match alloc_failure w e with
  | Some err => throw err
  | None =>
      i ← fresh_id live;
      let out := mkTensor i i (t_dtype e) (shape e) (nbytes e) (is_sparse e)
                          (is_coalesced e) None in
      _ ← modify_proc (fun p => set_realized (out :: realized p) p);
      mret out
  end.

(** [cls.fake_mode.is_our_fake(e)] *)
Definition is_our_fake (fm : positive) (e : leaf) : bool :=
  match e with
  | LTensor t => bool_decide (fake_mode t = Some fm)
  | LScalar _ => false
  end.

(** The alias map [inp_impls]: [id(out)] of a realized operand to the fake
    operand it stands for. *)
Abbreviation AliasMap := (gmap positive Tensor).

(** [to_real_tensor(e)], with the update of [inp_impls] made explicit. *)
Definition to_real_tensor (w : World) (live : list Tensor)
    (acc : list leaf * AliasMap) (e : leaf) : M (list leaf * AliasMap) :=
  fm ← get_cls_fake_mode;
  match e with
  | LTensor t =>
      if is_our_fake fm e then
        out ← real_like w live t;
        mret (acc.1 ++ [LTensor out], <[obj_id out := t]> acc.2)
      else mret (acc.1 ++ [e], acc.2)
  | LScalar _ => mret (acc.1 ++ [e], acc.2)
  end.

(** [flat_args = [to_real_tensor(a) for a in flat_args]] *)
Fixpoint realize (w : World) (live : list Tensor) (acc : list leaf * AliasMap)
    (flat_args : list leaf) : M (list leaf * AliasMap) :=
  match flat_args with
  | [] => mret acc
  | e :: rest => acc' ← to_real_tensor w live acc e; realize w live acc' rest
  end.

(** One real launch of the kernel on the realized operands. *)
Definition launch (w : World) (f : OpOverload) (flat_args : list leaf)
  : M (list leaf) := fun p =>
  (set_kernel_runs (S (kernel_runs p)) p, run_real w f flat_args).

(** [for _ in range(n): func(...)] *)
Fixpoint launch_n (w : World) (f : OpOverload) (flat_args : list leaf) (n : nat)
  : M unit :=
  match n with
  | O => mret tt
  | S n' => _ ← launch w f flat_args; launch_n w f flat_args n'
  end.

(** The set [storages] built from the realized [flat_args]. *)
Definition input_storages (flat_args : list leaf) : gset positive :=
  list_to_set
    (map storage (filter (fun t => is_sparse t = false) (omap as_tensor flat_args))).

(** The guard of [map_out]: the output is not a recorded realization, yet
    it is a dense tensor living in the storage of some input. *)
Definition unsupported_alias (inp_impls : AliasMap) (storages : gset positive)
    (e : leaf) : bool :=
  match e with
  | LTensor t =>
      bool_decide (inp_impls !! obj_id t = None)
      && (negb (is_sparse t) && bool_decide (storage t ∈ storages))
  | LScalar _ => false
  end.

(** [cls.fake_mode.fake_tensor_converter.from_real_tensor(cls.fake_mode, e)]:
    a new fake tensor with the metadata of the real one. *)
Definition from_real_tensor (live : list Tensor) (e : Tensor) : M Tensor :=
  fm ← get_cls_fake_mode;
  i ← fresh_id (e :: live);
  mret (mkTensor i i (t_dtype e) (shape e) (nbytes e) (is_sparse e)
                 (is_coalesced e) (Some fm)).

(** [map_out(e)] *)
Definition map_out (live : list Tensor) (inp_impls : AliasMap)
    (storages : gset positive) (orig_not_implemented_exception : exn)
    (e : leaf) : M leaf :=
  if unsupported_alias inp_impls storages e then
    throw orig_not_implemented_exception
  else
    match e with
    | LTensor t =>
        match inp_impls !! obj_id t with
        | Some fake => mret (LTensor fake)
        | None => t' ← from_real_tensor live t; mret (LTensor t')
        end
    | LScalar _ => mret e
    end.

(** [pytree.tree_map(map_out, r)], leaves in order. *)
Fixpoint tree_map_out (live : list Tensor) (inp_impls : AliasMap)
    (storages : gset positive) (orig_not_implemented_exception : exn)
    (r : list leaf) : M (list leaf) :=
  match r with
  | [] => mret []
  | e :: rest =>
      e' ← map_out live inp_impls storages orig_not_implemented_exception e;
      rest' ← tree_map_out live inp_impls storages
                orig_not_implemented_exception rest;
      mret (e' :: rest')
  end.

Definition warmup_iters : nat := 2.
Definition actual_iters : nat := 3.

(** The block under [with no_dispatch()]: the operands are realized, the
    kernel is launched once for its result, twice to warm up and three
    times between the two device events.  It yields the realized operands,
    the alias map, the real outputs and the mean time.  A [kwargs] that is
    [None] flattens to one non-tensor leaf and makes the double-star call
    raise [TypeError]. *)
Definition no_dispatch_block (w : World) (f : OpOverload) (a : list leaf)
    (kw : option (list (string * leaf)))
  : M (list leaf * AliasMap * list leaf * Qc) :=
  let flat_args := tree_flatten_args a (kwargs_or_empty kw) in
  let live := omap as_tensor flat_args in
  '(flat_args, inp_impls) ← realize w live ([], ∅) flat_args;
  _ ← (if kw is None then throw TypeError else mret tt);
  r ← launch w f flat_args;
  _ ← launch_n w f flat_args warmup_iters;
  _ ← launch_n w f flat_args actual_iters;
  let cuda_time := elapsed_time w f flat_args in
  let mean_op_time := (cuda_time / Z2Qc (Z.of_nat actual_iters))%Qc in
  mret (flat_args, inp_impls, r, mean_op_time).

(** [_maybe_run_and_benchmark_fallback_kernel(func, args, kwargs,
    orig_not_implemented_exception)] *)
Definition _maybe_run_and_benchmark_fallback_kernel (w : World)
    (f : OpOverload) (a : list leaf) (kw : option (list (string * leaf)))
    (orig_not_implemented_exception : exn) : M (list leaf * Qc) :=
  if bool_decide (inplace_view ∈ tags f) then
    throw orig_not_implemented_exception
  else
    '(flat_args, inp_impls, r, mean_op_time) ← no_dispatch_block w f a kw;
    let storages := input_storages flat_args in
    res ← tree_map_out (omap as_tensor (flat_args ++ r)) inp_impls storages
            orig_not_implemented_exception r;
    mret (res, mean_op_time).

(** The last two statements of [_benchmark_estimate]: the operator is run
    under the fake mode and returned with the current [mean_op_time]. *)
Definition run_symbolically (w : World) (inv : Invocation) (mean_op_time : Qc)
  : M (list leaf * Qc) :=
  res ← lift (run_fake w (func inv) (args inv) (kwargs_or_empty (kwargs inv)));
  mret (res, mean_op_time).

(** [_benchmark_estimate(func, args, kwargs)] *)
Definition _benchmark_estimate (w : World) (inv : Invocation)
  : M (list leaf * Qc) :=
  _ ← get_cls_fake_mode;
  let mean_op_time := 0%Qc in
  if decide (_overloadpacket (func inv) ∉ _VIEW_OPS) then
    try_except
      ('(res, mean_op_time) ←
         _maybe_run_and_benchmark_fallback_kernel w (func inv) (args inv)
           (kwargs inv) NotImplementedError;
       mret (res, mean_op_time))
      NotImplementedError
      (_ ← modify_proc (fun p =>
             set_no_fallback_kernel
               ({[ _overloadpacket (func inv) ]} ∪ _no_fallback_kernel p) p);
       run_symbolically w inv mean_op_time)
  else run_symbolically w inv mean_op_time.

(** ** Learned-model strategy *)

(** The decorators executed, in order, each time the body of
    [_learned_estimate_predictor] runs: the target packet and the name of
    the timing function registered for it. *)
Definition timing_targets : list (string * string) :=
  [ ("aten.mm", "mm_time"); ("aten.addmm", "mm_time");
    ("aten.bmm", "bmm_time"); ("aten.baddmm", "bmm_time");
    ("aten._scaled_dot_product_efficient_attention", "sdpa_efficient_time");
    ("aten._scaled_dot_product_flash_attention", "sdpa_flash_time");
    ("aten.convolution", "conv_time"); ("aten._convolution", "conv_time");
    ("aten.convolution_backward", "conv_backward_time") ].

(** [register(target)] of [register_timing_formula]: every target is an
    [OpOverloadPacket], so only the duplicate check can raise.  The entry is
    written into [flop_registry]. *)
Definition register (w : World) (target_formula : string * string) : M unit :=
  p ← get_proc;
  if decide (is_Some (flop_registry p !! target_formula.1)) then throw RuntimeError
  else
    modify_proc (fun p =>
      set_flop_registry
        (<[target_formula.1 := timing_formula w target_formula.2]> (flop_registry p)) p).

Fixpoint register_all (w : World) (l : list (string * string)) : M unit :=
  match l with
  | [] => mret tt
  | tf :: rest => _ ← register w tf; register_all w rest
  end.

Definition as_packet (v : pyval) : result string :=
  match v with
  | VPacket s => Ok s
  | _ => Raise TypeError
  end.

Definition as_dtypes (v : pyval) : result (list dtype) :=
  match v with
  | VDtypes s => Ok s
  | _ => Raise TypeError
  end.

Definition as_kwargs (v : pyval) : result (list (string * leaf)) :=
  match v with
  | VKwargs kw => Ok kw
  | _ => Raise TypeError
  end.

(** [d[k]] *)
Definition getitem {V} (d : gmap string V) (k : string) : result V :=
  match d !! k with
  | Some v => Ok v
  | None => Raise KeyError
  end.

(** [_learned_estimate_predictor]: declared with the five parameters
    [(func_packet, args, kwargs, out, out_dtypes)] under [@classmethod]; the
    result is in nanoseconds. *)
Definition _learned_estimate_predictor (w : World) : PyFunction (M Qc) :=
  mkFun ["func_packet"; "args"; "kwargs"; "out"; "out_dtypes"] (fun env =>
    Ok (_ ← register_all w timing_targets;
        func_packet ← lift (env_get env "func_packet" ≫= as_packet);
        p ← get_proc;
        match _LEARNED_OPS p !! func_packet with
        | Some predictor_func =>
            out_dtypes ← lift (env_get env "out_dtypes" ≫= as_dtypes);
            _ ← lift (py_assert (bool_decide (length out_dtypes = 1%nat)));
            dtype ← lift (set_pop out_dtypes);
            flop_count_func ← lift (getitem (flop_registry p) func_packet);
            a ← lift (env_get env "args" ≫= iter_leaves);
            kw ← lift (env_get env "kwargs" ≫= as_kwargs);
            out ← lift (env_get env "out" ≫= iter_leaves);
            flops ← lift (flop_count_func (tree_flatten_args a kw) out);
            let gflops := (Z2Qc flops / c_1e9)%Qc in
            compute_time ← lift (predictor_func dtype gflops (tree_flatten_args a kw) out);
            let compute_time := (compute_time * c_1e6)%Qc in
            mret compute_time
        | None => mret 0%Qc
        end)).

(** [_learned_estimate(func, args, kwargs)] *)
Definition _learned_estimate (w : World) (inv : Invocation) : M (list leaf * Qc) :=
  _ ← lift (py_assert (cuda_is_available w));
  let kwargs := kwargs_or_empty (kwargs inv) in
  out ← lift (run_fake w (func inv) (args inv) kwargs);
  let func_packet := _overloadpacket (func inv) in
  if decide (func_packet ∉ _IGNORE_OPS) then
    let flat_args_kwargs := tree_flatten_args (args inv) kwargs in
    let flat_outs := out in
    transfer_time ←
      lift (call_classmethod (_get_transfer_time w)
              [VLeaves flat_args_kwargs; VLeaves flat_outs]);
    let out_dtypes := float_out_dtypes flat_outs in
    predictor ←
      lift (call_classmethod (_learned_estimate_predictor w)
              [VPacket func_packet; VLeaves (args inv); VKwargs kwargs;
               VLeaves out; VDtypes out_dtypes]);
    compute_time ← predictor;
    let op_time := (py_max transfer_time compute_time / c_1e6)%Qc in
    mret (out, op_time)
  else mret (out, 0%Qc).

(** ** The estimator object *)

Inductive Strategy : Type :=
  | Benchmark
  | Roofline
  | Learned.

(** [self._estimate(func, args, kwargs)] for the strategy that [__call__]
    stored. *)
Definition run_strategy (w : World) (s : Strategy) (inv : Invocation)
  : M (list leaf * Qc) :=
  match s with
  | Benchmark => _benchmark_estimate w inv
  | Roofline => fun p => _roofline_estimate w p inv
  | Learned => _learned_estimate w inv
  end.

(** Modelled from the spec: the call-scope tracker ([ModTracker]), which is
    not part of the source file.  It exposes the ordered list of the
    qualifiers of the currently open scopes ([parents]) and the phase flag
    ([is_bw]); it holds at most one set of four user hooks; it is entered
    and exited as a context manager. *)
Record ModTracker : Type := mkTracker {
  parents : list string;
  is_bw : bool;
  user_hooks_registered : bool;
  tracker_entered : bool
}.

(** Modelled from the spec: [register_user_hooks] installs the four
    callbacks, [clear_user_hooks] removes them. *)
Definition register_user_hooks (t : ModTracker) : ModTracker :=
  mkTracker (parents t) (is_bw t) true (tracker_entered t).

Definition clear_user_hooks (t : ModTracker) : ModTracker :=
  mkTracker (parents t) (is_bw t) false (tracker_entered t).

(** Modelled from the spec: entering and leaving the tracker. *)
Definition tracker_enter (t : ModTracker) : ModTracker :=
  mkTracker (parents t) (is_bw t) (user_hooks_registered t) true.

Definition tracker_exit (t : ModTracker) : ModTracker :=
  mkTracker (parents t) (is_bw t) (user_hooks_registered t) false.

(** The instance attributes of a [RuntimeEstimator].  [_estimate] and
    [_estimate_mode_type] are only annotated by [__init__]: they do not
    exist until [__call__] assigns them.  [dispatching] tells whether the
    instance is on the dispatch-mode stack, that is, whether operators are
    being intercepted. *)
Record Estimator : Type := mkEst {
  _estimate : option Strategy;
  _estimate_mode_type : option string;
  _mod_tracker : ModTracker;
  mod_runtimes : gmap string (gmap string Qc);
  mod_fw_pre_order : list string;
  mod_bw_pre_order : list string;
  mod_fw_post_order : list string;
  mod_bw_post_order : list string;
  total_runtime : Qc;
  dispatching : bool
}.

(** [RuntimeEstimator()] *)
Definition __init__ : Estimator :=
  mkEst None None (mkTracker [] false false false) ∅ [] [] [] [] 0%Qc false.

(** [self(estimate_mode_type)] *)
Definition __call__ (self : Estimator) (estimate_mode_type : string)
  : Estimator * result unit :=
  let set s :=
    (mkEst (Some s) (Some estimate_mode_type) (_mod_tracker self)
           (mod_runtimes self) (mod_fw_pre_order self) (mod_bw_pre_order self)
           (mod_fw_post_order self) (mod_bw_post_order self)
           (total_runtime self) (dispatching self), Ok tt) in
  if decide (estimate_mode_type = "operator-level-benchmark") then set Benchmark
  else if decide (estimate_mode_type = "operator-level-cost-model") then set Roofline
  else if decide (estimate_mode_type = "operator-level-learned-model") then set Learned
  else (self, Raise NotImplementedError).

Definition set_accumulators (self : Estimator)
    (runtimes : gmap string (gmap string Qc)) (total : Qc) : Estimator :=
  mkEst (_estimate self) (_estimate_mode_type self) (_mod_tracker self)
        runtimes (mod_fw_pre_order self) (mod_bw_pre_order self)
        (mod_fw_post_order self) (mod_bw_post_order self) total
        (dispatching self).

Definition set_tracker (self : Estimator) (t : ModTracker) : Estimator :=
  mkEst (_estimate self) (_estimate_mode_type self) t
        (mod_runtimes self) (mod_fw_pre_order self) (mod_bw_pre_order self)
        (mod_fw_post_order self) (mod_bw_post_order self) (total_runtime self)
        (dispatching self).

(** [self.mod_runtimes[par][key] += op_time] on the nested [defaultdict]:
    a missing scope reads as an empty record, a missing phase as [0.0]. *)
Definition add_runtime (key : string) (op_time : Qc)
    (m : gmap string (gmap string Qc)) (par : string)
  : gmap string (gmap string Qc) :=
  let inner := default ∅ (m !! par) in
  <[par := <[key := (default 0%Qc (inner !! key) + op_time)%Qc]> inner]> m.

(** The key under which the current phase accumulates. *)
Definition phase_key (bw : bool) : string := if bw then "bw" else "fw".

(** [runtimes.get(key, 0.0)] for the record of scope [fqn], as
    [display_modulewise_stats] reads it. *)
Definition scope_runtime (m : gmap string (gmap string Qc)) (fqn key : string) : Qc :=
  default 0%Qc (default ∅ (m !! fqn) !! key).

(** The body of [__torch_dispatch__], with the local [op_time] kept next to
    the value it returns. *)
Definition dispatch_body (w : World) (self : Estimator) (inv : Invocation)
    (p : Proc) : (Proc * Estimator) * result (list leaf * Qc) :=
  match _estimate self with
  | None => ((p, self), Raise AttributeError)
  | Some s =>
      match run_strategy w s inv p with
      | (p', Raise e) => ((p', self), Raise e)
      | (p', Ok (res, op_time)) =>
          let runtimes :=
            foldl (add_runtime (phase_key (is_bw (_mod_tracker self))) op_time)
                  (mod_runtimes self) (parents (_mod_tracker self)) in
          ((p', set_accumulators self runtimes (total_runtime self + op_time)%Qc),
           Ok (res, op_time))
      end
  end.

(** [__torch_dispatch__(func, types, args, kwargs)] *)
Definition __torch_dispatch__ (w : World) (self : Estimator) (inv : Invocation)
    (p : Proc) : (Proc * Estimator) * result (list leaf) :=
  let '(st, r) := dispatch_body w self inv p in
  (st, '(res, _) ← r; Ok res).

(** [__enter__()] *)
Definition __enter__ (w : World) (self : Estimator) (p : Proc)
  : (Proc * Estimator) * result unit :=
  match active_fake_mode w with
  | None => ((p, self), Raise AssertionError)
  | Some fm =>
      ((set_cls_fake_mode (Some fm) p,
        mkEst (_estimate self) (_estimate_mode_type self)
              (tracker_enter (register_user_hooks (_mod_tracker self)))
              ∅ [] [] [] [] 0%Qc true),
       Ok tt)
  end.

(** [__exit__( *args)]: the two [print] calls only read the state (the
    first one reads [self._estimate_mode_type]); the text they write is not
    part of the model.  [exc] is the exception that ended the block, if
    any. *)
Definition __exit__ (self : Estimator) (exc : option exn) (p : Proc)
  : (Proc * Estimator) * result unit :=
  match _estimate_mode_type self with
  | None => ((p, self), Raise AttributeError)
  | Some _ =>
      ((p,
        mkEst (_estimate self) (_estimate_mode_type self)
              (tracker_exit (clear_user_hooks (_mod_tracker self)))
              (mod_runtimes self) (mod_fw_pre_order self) (mod_bw_pre_order self)
              (mod_fw_post_order self) (mod_bw_post_order self)
              (total_runtime self) false),
       Ok tt)
  end.

(** ** An activation window

    What happens between [__enter__] and [__exit__], seen from the
    estimator: the tracker moves (scopes open and close, the phase flips),
    the tracker fires one of the four registered hooks, or an operator is
    intercepted. *)

Inductive Hook : Type := pre_fw_hook | pre_bw_hook | post_fw_hook | post_bw_hook.

Inductive Event : Type :=
  | EvTracker (open_scopes : list string) (bw : bool)
  | EvHook (h : Hook) (fqn : string)
  | EvOp (inv : Invocation).

(** The four lambdas passed to [register_user_hooks]. *)
Definition fire_hook (self : Estimator) (h : Hook) (fqn : string) : Estimator :=
  if user_hooks_registered (_mod_tracker self) then
    match h with
    | pre_fw_hook =>
        mkEst (_estimate self) (_estimate_mode_type self) (_mod_tracker self)
              (mod_runtimes self) (mod_fw_pre_order self ++ [fqn])
              (mod_bw_pre_order self) (mod_fw_post_order self)
              (mod_bw_post_order self) (total_runtime self) (dispatching self)
    | pre_bw_hook =>
        mkEst (_estimate self) (_estimate_mode_type self) (_mod_tracker self)
              (mod_runtimes self) (mod_fw_pre_order self)
              (mod_bw_pre_order self ++ [fqn]) (mod_fw_post_order self)
              (mod_bw_post_order self) (total_runtime self) (dispatching self)
    | post_fw_hook =>
        mkEst (_estimate self) (_estimate_mode_type self) (_mod_tracker self)
              (mod_runtimes self) (mod_fw_pre_order self)
              (mod_bw_pre_order self) (mod_fw_post_order self ++ [fqn])
              (mod_bw_post_order self) (total_runtime self) (dispatching self)
    | post_bw_hook =>
        mkEst (_estimate self) (_estimate_mode_type self) (_mod_tracker self)
              (mod_runtimes self) (mod_fw_pre_order self)
              (mod_bw_pre_order self) (mod_fw_post_order self)
              (mod_bw_post_order self ++ [fqn]) (total_runtime self) (dispatching self)
    end
  else self.

(** What one returned interception contributed: the scopes the tracker
    reported open, the phase, and the elapsed time the strategy returned. *)
Record Attribution : Type := mkAttr {
  at_scopes : list string;
  at_bw : bool;
  at_time : Qc
}.

(** One event.  An operator is intercepted only while the instance is on
    the mode stack.  The second component records the interception when the
    strategy returned. *)
Definition step (w : World) (st : Proc * Estimator) (ev : Event)
  : (Proc * Estimator) * option Attribution * result unit :=
  let '(p, self) := st in
  match ev with
  | EvTracker open_scopes bw =>
      let t := _mod_tracker self in
      ((p, set_tracker self
             (mkTracker open_scopes bw (user_hooks_registered t) (tracker_entered t))),
       None, Ok tt)
  | EvHook h fqn => ((p, fire_hook self h fqn), None, Ok tt)
  | EvOp inv =>
      if dispatching self then
        match dispatch_body w self inv p with
        | (st', Ok (_, op_time)) =>
            (st',
             Some (mkAttr (parents (_mod_tracker self)) (is_bw (_mod_tracker self))
                          op_time),
             Ok tt)
        | (st', Raise e) => (st', None, Raise e)
        end
      else (st, None, Ok tt)
  end.

(** The events of a window in order, up to the first one that raises; the
    attributions of the interceptions that returned are collected. *)
Fixpoint run_window (w : World) (st : Proc * Estimator) (evs : list Event)
  : (Proc * Estimator) * list Attribution * result unit :=
  match evs with
  | [] => (st, [], Ok tt)
  | ev :: rest =>
      match step w st ev with
      | (st', a, Ok _) =>
          let '(st'', log, r) := run_window w st' rest in
          (st'', option_list a ++ log, r)
      | (st', a, Raise e) => (st', option_list a, Raise e)
      end
  end.

(** [with estimator: <events>]: [__exit__] runs whether or not the block
    raised, and the exception of the block is re-raised after it. *)
Definition with_block (w : World) (self : Estimator) (evs : list Event)
    (p : Proc) : (Proc * Estimator) * list Attribution * result unit :=
  match __enter__ w self p with
  | (st, Raise e) => (st, [], Raise e)
  | (st, Ok _) =>
      let '(st', log, r) := run_window w st evs in
      let exc := match r with Ok _ => None | Raise e => Some e end in
      match __exit__ st'.2 exc st'.1 with
      | (st'', Raise e) => (st'', log, Raise e)
      | (st'', Ok _) => (st'', log, r)
      end
  end.

(** * Concrete instances

    A device, a flop registry and a few invocations on which the
    definitions are evaluated. *)

Module Instances.

(** A dense fake tensor of the given identity, precision, shape and
    storage size, owned by fake mode [1]. *)
Definition fake (i : positive) (d : dtype) (shp : list Z) (bytes : Z) : Tensor :=
  mkTensor i i d shp bytes false false (Some 1%positive).

(** An entry of the flop registry for matrix multiply, after
    [torch.utils.flop_counter.mm_flop]: [m * n * 2 * k] for shapes
    [(m, k)] and [(k, n)]. *)
Definition mm_flop : FlopFormula := fun operands _ =>
  match operands with
  | LTensor a :: LTensor b :: _ =>
      match shape a, shape b with
      | [m; k], [k2; n] =>
          if (k =? k2)%Z then Ok (m * n * 2 * k) else Raise AssertionError
      | _, _ => Raise ValueError
      end
  | _ => Raise TypeError
  end.

Definition lhs : Tensor := fake 10 float32 [128; 64] (128 * 64 * 4).
Definition rhs : Tensor := fake 11 float32 [64; 32] (64 * 32 * 4).
Definition prod : Tensor := fake 12 float32 [128; 32] (128 * 32 * 4).
Definition half_out : Tensor := fake 13 float16 [128; 32] (128 * 32 * 2).

Definition aten_mm : OpOverload := mkOp "aten.mm" "default" [].
Definition aten_relu : OpOverload := mkOp "aten.relu" "default" [pointwise].
Definition aten_randn : OpOverload := mkOp "aten.randn" "default" [nondeterministic_seeded].
Definition aten_transpose_ : OpOverload := mkOp "aten.transpose_" "default" [inplace_view].
(** A custom operator registered for the CPU only. *)
Definition cpu_only_op : OpOverload := mkOp "mylib.cpu_only_op" "default" [].
Definition aten_native_layer_norm : OpOverload :=
  mkOp "aten.native_layer_norm" "default" [].

(** Symbolic execution on this device: a product for [mm], a tensor like
    the first operand for [relu], a fresh tensor for [randn], a pair of
    different floating precisions for [split] and for
    [native_layer_norm]; the in-place transpose returns its operand. *)
Definition fake_exec (f : OpOverload) (a : list leaf) (kw : list (string * leaf))
  : result (list leaf) :=
  if decide (_overloadpacket f = "aten.mm") then Ok [LTensor prod]
  else if decide (_overloadpacket f = "aten.relu") then Ok (take 1 a)
  else if decide (_overloadpacket f = "aten.randn") then Ok [LTensor prod]
  else if decide (_overloadpacket f = "aten.split") then Ok [LTensor prod; LTensor half_out]
  else if decide (_overloadpacket f = "aten.native_layer_norm")
       then Ok [LTensor half_out; LTensor prod]
  else if decide (_overloadpacket f = "aten.transpose_") then Ok (take 1 a)
  else if decide (_overloadpacket f = "mylib.cpu_only_op") then Ok (take 1 a)
  else Raise NotImplementedError.

(** Real execution on this device: the custom operator has no kernel for
    it, [mm] runs out of memory, [native_layer_norm] returns a view into
    the storage of its first operand, anything else a new dense tensor. *)
Definition real_exec (f : OpOverload) (a : list leaf) : result (list leaf) :=
  if decide (_overloadpacket f = "mylib.cpu_only_op") then Raise NotImplementedError
  else if decide (_overloadpacket f = "aten.mm") then Raise RuntimeError
  else if decide (_overloadpacket f = "aten.native_layer_norm") then
    match a with
    | LTensor t :: _ =>
        Ok [LTensor (mkTensor 9000 (storage t) (t_dtype t) (shape t) (nbytes t)
                              false false None)]
    | _ => Raise TypeError
    end
  else Ok [LTensor (mkTensor 9001 9001 float32 [128; 32] (128 * 32 * 4)
                             false false None)].

(** 1 TB/s of memory bandwidth, 0.1 for every precision as returned by
    [get_device_tflops], 3 ms for every timed burst. *)
Definition world : World :=
  {| cuda_is_available := true;
     get_gpu_dram_gbps := Z2Qc 1000;
     get_device_tflops := fun _ => Q2Qc (1 # 10);
     no_cuda_memory_caching := 0;
     active_fake_mode := Some 1%positive;
     run_fake := fake_exec;
     run_real := real_exec;
     alloc_failure := fun _ => None;
     elapsed_time := fun _ _ => Z2Qc 3;
     timing_formula := fun _ _ _ => Raise TypeError |}.

(** The same machine with no live fake mode. *)
Definition world_no_fake_mode : World :=
  {| cuda_is_available := true;
     get_gpu_dram_gbps := Z2Qc 1000;
     get_device_tflops := fun _ => Q2Qc (1 # 10);
     no_cuda_memory_caching := 0;
     active_fake_mode := None;
     run_fake := fake_exec;
     run_real := real_exec;
     alloc_failure := fun _ => None;
     elapsed_time := fun _ _ => Z2Qc 3;
     timing_formula := fun _ _ _ => Raise TypeError |}.

(** The process after a first activation under fake mode [1], with the
    stock registry entry for [mm]. *)
Definition proc : Proc :=
  {| cls_fake_mode := Some 1%positive;
     _no_fallback_kernel := ∅;
     flop_registry := {[ "aten.mm" := mm_flop ]};
     _LEARNED_OPS := ∅;
     realized := [];
     kernel_runs := 0;
     next_id := 1 |}.


Definition mm_call : Invocation :=
  mkInv aten_mm [LTensor lhs; LTensor rhs] (Some []).
Definition relu_call : Invocation :=
  mkInv aten_relu [LTensor lhs] (Some []).
Definition cpu_only_call : Invocation :=
  mkInv cpu_only_op [LTensor lhs] (Some []).
Definition randn_call : Invocation :=
  mkInv aten_randn [LScalar 128; LScalar 32] (Some []).
Definition layer_norm_call : Invocation :=
  mkInv aten_native_layer_norm [LTensor lhs] (Some []).
Definition transpose__call : Invocation :=
  mkInv aten_transpose_ [LTensor lhs; LScalar 0; LScalar 1] (Some []).

End Instances.

(** * Properties *)

(** Unfolding of the two monads. *)
Ltac unbind :=
  repeat (simpl in *;
          unfold mbind, mret, result_bind, result_ret, M_bind, M_ret, lift,
            throw, get_proc, modify_proc in *).

(** Evaluation of a closed goal whose sides may differ in the canonicity
    proofs of their rationals. *)
Ltac qc_close :=
  first [ reflexivity
        | apply Qc_is_canon; reflexivity
        | progress f_equal; qc_close ].
Ltac qc_eval := vm_compute; qc_close.

(** ** Call binding of the transfer-time helper *)

Lemma bind_params_length ps actuals :
  length actuals ≠ length ps → bind_params ps actuals = Raise TypeError.
Proof. intros H. unfold bind_params. by rewrite decide_False. Qed.

Lemma classmethod_transfer_time_TypeError w a b :
  call_classmethod (_get_transfer_time w) [VLeaves a; VLeaves b] = Raise TypeError.
Proof. reflexivity. Qed.

(** Called with exactly its two declared parameters, the function computes
    the bytes moved over the bandwidth. *)
Lemma function_transfer_time w a b :
  call_function (_get_transfer_time w) [VLeaves a; VLeaves b]
  = fdiv (Z2Qc (sum_num_bytes w a + sum_num_bytes w b)) (get_gpu_dram_gbps w).
Proof.
  unfold call_function; unbind.
  by destruct (fdiv _ _).
Qed.

Lemma roofline_ignored w p inv out :
  cuda_is_available w = true →
  run_fake w (func inv) (args inv) (kwargs_or_empty (kwargs inv)) = Ok out →
  _overloadpacket (func inv) ∈ _IGNORE_OPS →
  _roofline_estimate w p inv = (p, Ok (out, 0%Qc)).
Proof.
  intros Hc Hf Hi. unfold _roofline_estimate. rewrite Hc, Hf; unbind.
  rewrite decide_False; [done | by intros ?].
Qed.

Lemma roofline_not_ignored w p inv :
  _overloadpacket (func inv) ∉ _IGNORE_OPS →
  (∀ r, (_roofline_estimate w p inv).2 ≠ Ok r) ∧
  (cuda_is_available w = true →
   returns (run_fake w (func inv) (args inv) (kwargs_or_empty (kwargs inv))) →
   _roofline_estimate w p inv = (p, Raise TypeError)).
Proof.
  intros Hi. unfold _roofline_estimate; unbind. split.
  - intros r. destruct (cuda_is_available w); cbn; [|done].
    destruct (run_fake _ _ _ _); cbn; [|done].
    by rewrite decide_True.
  - intros -> [out ->]; cbn. by rewrite decide_True.
Qed.

Lemma learned_ignored w p inv out :
  cuda_is_available w = true →
  run_fake w (func inv) (args inv) (kwargs_or_empty (kwargs inv)) = Ok out →
  _overloadpacket (func inv) ∈ _IGNORE_OPS →
  _learned_estimate w inv p = (p, Ok (out, 0%Qc)).
Proof.
  intros Hc Hf Hi. unfold _learned_estimate. rewrite Hc, Hf; unbind.
  rewrite decide_False; [done | by intros ?].
Qed.

Lemma learned_not_ignored w p inv :
  _overloadpacket (func inv) ∉ _IGNORE_OPS →
  (∀ r, (_learned_estimate w inv p).2 ≠ Ok r) ∧
  (cuda_is_available w = true →
   returns (run_fake w (func inv) (args inv) (kwargs_or_empty (kwargs inv))) →
   _learned_estimate w inv p = (p, Raise TypeError)).
Proof.
  intros Hi. unfold _learned_estimate; unbind. split.
  - intros r. destruct (cuda_is_available w); cbn; [|done].
    destruct (run_fake _ _ _ _); cbn; [|done].
    by rewrite decide_True.
  - intros -> [out ->]; cbn. by rewrite decide_True.
Qed.

(** ** Compute time of the roofline model *)

Lemma compute_time_unregistered w p (k : string) a out dts :
  flop_registry p !! k = None → get_compute_time w p k a out dts = Ok 0%Qc.
Proof. intros H. unfold get_compute_time. by rewrite H. Qed.

Lemma compute_time_ambiguous w p (k : string) (f : FlopFormula) a out dts :
  flop_registry p !! k = Some f → length dts ≠ 1%nat →
  get_compute_time w p k a out dts = Raise AssertionError.
Proof.
  intros H Hl. unfold get_compute_time. rewrite H.
  by rewrite bool_decide_eq_false_2.
Qed.

(** With a registered formula and a single output precision, the compute
    time is half the formula's count over 75% of the peak, in
    nanoseconds. *)
Lemma compute_time_registered w p (k : string) (f : FlopFormula) a out d flops :
  flop_registry p !! k = Some f →
  f a out = Ok flops →
  (factor * (get_device_tflops w d * c_1e15))%Qc ≠ 0%Qc →
  get_compute_time w p k a out [d]
  = Ok (Z2Qc flops / Z2Qc 2 / (factor * (get_device_tflops w d * c_1e15)) * c_1e9)%Qc.
Proof.
  intros H Hf Hz. unfold get_compute_time. rewrite H; unbind.
  rewrite Hf. unfold fdiv. by rewrite decide_False.
Qed.

(** The value the two helpers yield for the matrix multiply
    [(128,64) x (64,32)] in [float32] when each is called with its declared
    parameters: 57344 bytes over 1000 GB/s against 262144 multiply-adds
    over 75% of the peak. *)
Example mm_helper_values :
  call_function (_get_transfer_time Instances.world)
    [VLeaves [LTensor Instances.lhs; LTensor Instances.rhs];
     VLeaves [LTensor Instances.prod]]
  = Ok (Q2Qc (57344 # 1000))
  ∧ get_compute_time Instances.world Instances.proc "aten.mm"
      [LTensor Instances.lhs; LTensor Instances.rhs] [LTensor Instances.prod]
      (float_out_dtypes [LTensor Instances.prod])
    = Ok (Q2Qc (262144 # 75000))
  ∧ (py_max (Q2Qc (57344 # 1000)) (Q2Qc (262144 # 75000)) / c_1e6)%Qc
    = Q2Qc (57344 # 1000000000).
Proof.
  split; [|split].
  - qc_eval.
  - qc_eval.
  - qc_eval.
Qed.

(** C3.  [_get_transfer_time] is declared under [@classmethod] with the two
    parameters [(flat_args_kwargs, flat_outs)], so the bound call
    [cls._get_transfer_time(flat_args_kwargs, flat_outs)] passes three
    arguments and raises [TypeError]; hence, with the device available and
    the symbolic run of the operator returning, the roofline and the
    learned strategy raise [TypeError] on every operator outside
    [_IGNORE_OPS], and under no circumstances return a pair for it. *)
Theorem transfer_time_binding_TypeError (w : World) (p : Proc) (inv : Invocation) :
  _overloadpacket (func inv) ∉ _IGNORE_OPS →
  cuda_is_available w = true →
  returns (run_fake w (func inv) (args inv) (kwargs_or_empty (kwargs inv))) →
  params (_get_transfer_time w) = ["flat_args_kwargs"; "flat_outs"]
  ∧ (∀ a b, call_classmethod (_get_transfer_time w) [VLeaves a; VLeaves b]
            = Raise TypeError)
  ∧ _roofline_estimate w p inv = (p, Raise TypeError)
  ∧ _learned_estimate w inv p = (p, Raise TypeError)
  ∧ (∀ r, (_roofline_estimate w p inv).2 ≠ Ok r)
  ∧ (∀ r, (_learned_estimate w inv p).2 ≠ Ok r).
Proof.
  intros Hi Hc Hf.
  destruct (roofline_not_ignored w p inv Hi) as [Hr1 Hr2].
  destruct (learned_not_ignored w p inv Hi) as [Hl1 Hl2].
  repeat split; auto.
Qed.

Lemma transfer_time_binding_TypeError_witness :
  _roofline_estimate Instances.world Instances.proc Instances.mm_call
  = (Instances.proc, Raise TypeError)
  ∧ _learned_estimate Instances.world Instances.mm_call Instances.proc
    = (Instances.proc, Raise TypeError).
Proof.
  pose proof (transfer_time_binding_TypeError Instances.world Instances.proc
                Instances.mm_call) as H.
  destruct H as (_ & _ & Hr & Hl & _).
  - vm_compute. set_solver.
  - reflexivity.
  - eexists. vm_compute. reflexivity.
  - split; assumption.
Defined.

(** C1.  On the matrix multiply [(128,64) x (64,32)], whose kind has a
    registered flop formula, the roofline strategy does not return
    [max(transfer_time, compute_time)]: it raises [TypeError] at the call of
    [_get_transfer_time]. *)
Theorem roofline_mm_raises :
  (is_Some (flop_registry Instances.proc !! _overloadpacket (func Instances.mm_call)))
  ∧ _roofline_estimate Instances.world Instances.proc Instances.mm_call
    = (Instances.proc, Raise TypeError).
Proof.
  split.
  - vm_compute. eauto.
  - apply roofline_not_ignored.
    + vm_compute. set_solver.
    + reflexivity.
    + eexists. vm_compute. reflexivity.
Qed.

(** C10.  On [relu], a kind outside [_IGNORE_OPS] with no registered flop
    formula, the compute-time helper yields 0 but the roofline strategy does
    not return the transfer time: it raises [TypeError] at the call of
    [_get_transfer_time]. *)
Theorem roofline_relu_raises :
  (_overloadpacket (func Instances.relu_call) ∉ _IGNORE_OPS)
  ∧ flop_registry Instances.proc !! _overloadpacket (func Instances.relu_call) = None
  ∧ get_compute_time Instances.world Instances.proc "aten.relu"
      [LTensor Instances.lhs] [LTensor Instances.lhs] [float32] = Ok 0%Qc
  ∧ _roofline_estimate Instances.world Instances.proc Instances.relu_call
    = (Instances.proc, Raise TypeError).
Proof.
  assert (Hi : _overloadpacket (func Instances.relu_call) ∉ _IGNORE_OPS).
  { vm_compute. set_solver. }
  split; [|split; [|split]].
  - exact Hi.
  - by vm_compute.
  - by apply compute_time_unregistered.
  - apply roofline_not_ignored; [exact Hi | reflexivity |].
    eexists. vm_compute. reflexivity.
Qed.

(** ** Ambiguous output precision *)









(** ** Benchmark strategy *)

Lemma benchmark_unfold w inv p fm :
  cls_fake_mode p = Some fm →
  _benchmark_estimate w inv p
  = if decide (_overloadpacket (func inv) ∉ _VIEW_OPS) then
      match _maybe_run_and_benchmark_fallback_kernel w (func inv) (args inv)
              (kwargs inv) NotImplementedError p with
      | (p', Ok rt) => (p', Ok rt)
      | (p', Raise e) =>
          if decide (e = NotImplementedError) then
            run_symbolically w inv 0%Qc
              (set_no_fallback_kernel
                 ({[ _overloadpacket (func inv) ]} ∪ _no_fallback_kernel p') p')
          else (p', Raise e)
      end
    else run_symbolically w inv 0%Qc p.
Proof.
  intros Hfm. unfold _benchmark_estimate, get_cls_fake_mode.
  unfold mbind at 1. unfold M_bind at 1. rewrite Hfm.
  destruct (decide (_overloadpacket (func inv) ∉ _VIEW_OPS)); [|done].
  unfold try_except. unfold mbind at 1. unfold M_bind at 1.
  destruct (_maybe_run_and_benchmark_fallback_kernel _ _ _ _ _ p) as [p' [[res t]|e]];
    [done|].
  destruct (decide (e = NotImplementedError)); done.
Qed.

Lemma benchmark_no_fake_mode w inv p :
  cls_fake_mode p = None →
  _benchmark_estimate w inv p = (p, Raise AttributeError).
Proof.
  intros Hfm. unfold _benchmark_estimate, get_cls_fake_mode.
  unfold mbind at 1. unfold M_bind at 1. by rewrite Hfm.
Qed.

Lemma run_symbolically_spec w inv t p :
  run_symbolically w inv t p
  = (p, match run_fake w (func inv) (args inv) (kwargs_or_empty (kwargs inv)) with
        | Ok res => Ok (res, t)
        | Raise e => Raise e
        end).
Proof. unfold run_symbolically; unbind. by destruct (run_fake _ _ _ _). Qed.

Lemma fallback_inplace_view w f a kw e p :
  inplace_view ∈ tags f →
  _maybe_run_and_benchmark_fallback_kernel w f a kw e p = (p, Raise e).
Proof.
  intros H. unfold _maybe_run_and_benchmark_fallback_kernel.
  by rewrite bool_decide_eq_true_2.
Qed.

(** On a view kind the benchmark strategy returns the symbolic result with
    0 ms and leaves the process untouched. *)
Lemma benchmark_view w inv p fm res :
  cls_fake_mode p = Some fm →
  _overloadpacket (func inv) ∈ _VIEW_OPS →
  run_fake w (func inv) (args inv) (kwargs_or_empty (kwargs inv)) = Ok res →
  _benchmark_estimate w inv p = (p, Ok (res, 0%Qc)).
Proof.
  intros Hfm Hv Hr. rewrite (benchmark_unfold _ _ _ _ Hfm).
  rewrite decide_False by (by intros ?).
  by rewrite run_symbolically_spec, Hr.
Qed.

(** C6.  For an operator tagged [inplace_view] the benchmark strategy
    realizes no operand and launches no kernel: the fallback rejects it
    before anything else (the process is returned untouched), and, with the
    fake mode assigned, the operator is run symbolically and returned with
    0 ms. *)
Theorem inplace_view_never_realized (w : World) (inv : Invocation) (p : Proc) :
  inplace_view ∈ tags (func inv) →
  _maybe_run_and_benchmark_fallback_kernel w (func inv) (args inv) (kwargs inv)
    NotImplementedError p = (p, Raise NotImplementedError)
  ∧ realized (_benchmark_estimate w inv p).1 = realized p
  ∧ kernel_runs (_benchmark_estimate w inv p).1 = kernel_runs p
  ∧ (∀ fm res,
       cls_fake_mode p = Some fm →
       run_fake w (func inv) (args inv) (kwargs_or_empty (kwargs inv)) = Ok res →
       (_benchmark_estimate w inv p).2 = Ok (res, 0%Qc)).
Proof.
  intros Ht.
  pose proof (fallback_inplace_view w (func inv) (args inv) (kwargs inv)
                NotImplementedError p Ht) as Hfb.
  split; [exact Hfb|].
  destruct (cls_fake_mode p) as [fm|] eqn:Hfm.
  - rewrite (benchmark_unfold _ _ _ _ Hfm), Hfb.
    rewrite !run_symbolically_spec.
    destruct (decide (_overloadpacket (func inv) ∉ _VIEW_OPS)); simpl;
      (split; [done | split; [done|]]);
      intros fm' res _ Hr; by rewrite Hr.
  - rewrite (benchmark_no_fake_mode _ _ _ Hfm). simpl.
    split; [done | split; [done|]]. intros ???; discriminate.
Qed.

Lemma inplace_view_never_realized_witness :
  (_benchmark_estimate Instances.world Instances.transpose__call Instances.proc).2
  = Ok ([LTensor Instances.lhs], 0%Qc)
  ∧ realized (_benchmark_estimate Instances.world Instances.transpose__call
                Instances.proc).1 = [].
Proof.
  pose proof (inplace_view_never_realized Instances.world
                Instances.transpose__call Instances.proc) as H.
  destruct H as (_ & Hr & _ & Hs).
  - vm_compute. set_solver.
  - split; [|exact Hr].
    apply (Hs 1%positive); reflexivity.
Defined.

(** The elapsed time of a returned estimate. *)
Definition elapsed_of {A} (r : result (A * Qc)) : option Qc :=
  match r with
  | Ok (_, t) => Some t
  | Raise _ => None
  end.

(** C4.  A kind of [_CREATE_OPS] is not of [_VIEW_OPS], the only set the
    benchmark strategy tests: on [randn] it launches the real kernel six
    times and returns the measured mean, 1 ms on this device, not 0 ms. *)
Theorem benchmark_randn_is_timed :
  ("aten.randn" ∈ _CREATE_OPS)
  ∧ ("aten.randn" ∈ _IGNORE_OPS)
  ∧ ("aten.randn" ∉ _VIEW_OPS)
  ∧ elapsed_of (_benchmark_estimate Instances.world Instances.randn_call
                  Instances.proc).2 = Some 1%Qc
  ∧ kernel_runs (_benchmark_estimate Instances.world Instances.randn_call
                   Instances.proc).1 = 6%nat
  ∧ 1%Qc ≠ 0%Qc.
Proof.
  split; [|split; [|split; [|split; [|split]]]].
  - apply (bool_decide_unpack _). by vm_compute.
  - apply (bool_decide_unpack _). by vm_compute.
  - apply (bool_decide_unpack _). by vm_compute.
  - qc_eval.
  - by vm_compute.
  - discriminate.
Qed.

(** Every kind of [_IGNORE_OPS] costs 0 ms under the roofline and the
    learned strategy, and every kind of [_VIEW_OPS] under the benchmark
    strategy. *)
Lemma ignored_kinds_cost_nothing w p inv fm res :
  cuda_is_available w = true →
  cls_fake_mode p = Some fm →
  run_fake w (func inv) (args inv) (kwargs_or_empty (kwargs inv)) = Ok res →
  (_overloadpacket (func inv) ∈ _IGNORE_OPS →
     _roofline_estimate w p inv = (p, Ok (res, 0%Qc))
     ∧ _learned_estimate w inv p = (p, Ok (res, 0%Qc)))
  ∧ (_overloadpacket (func inv) ∈ _VIEW_OPS →
     _benchmark_estimate w inv p = (p, Ok (res, 0%Qc))).
Proof.
  intros Hc Hfm Hr. split.
  - intros Hi. split; [by apply roofline_ignored | by apply learned_ignored].
  - intros Hv. by eapply benchmark_view.
Qed.

(** *** What the fallback leaves alone

    Realizing, launching and mapping back only touch the device log and the
    identity counter: the fake mode of the class and the set of kinds
    without fallback kernel are framed. *)

Definition frame (p p' : Proc) : Prop :=
  cls_fake_mode p' = cls_fake_mode p
  ∧ _no_fallback_kernel p' = _no_fallback_kernel p.

Definition framed {A} (m : M A) : Prop := ∀ p, frame p (m p).1.

Lemma frame_refl p : frame p p.
Proof. by split. Qed.

Lemma frame_trans p1 p2 p3 : frame p1 p2 → frame p2 p3 → frame p1 p3.
Proof. intros [H1 H2] [H3 H4]. split; congruence. Qed.

Lemma framed_ret {A} (a : A) : framed (mret a : M A).
Proof. intros p. apply frame_refl. Qed.

Lemma framed_throw {A} e : framed (throw e : M A).
Proof. intros p. apply frame_refl. Qed.

Lemma framed_lift {A} (r : result A) : framed (lift r).
Proof. intros p. apply frame_refl. Qed.

Lemma framed_bind {A B} (m : M A) (k : A → M B) :
  framed m → (∀ a, framed (k a)) → framed (m ≫= k).
Proof.
  intros Hm Hk p. unfold mbind, M_bind.
  specialize (Hm p). destruct (m p) as [p' [a|e]]; simpl in *.
  - eapply frame_trans; [exact Hm | apply Hk].
  - exact Hm.
Qed.

Lemma framed_get_cls_fake_mode : framed get_cls_fake_mode.
Proof. intros p. unfold get_cls_fake_mode. destruct (cls_fake_mode p); apply frame_refl. Qed.

Lemma framed_fresh_id live : framed (fresh_id live).
Proof. intros p. by split. Qed.

Lemma framed_real_like w live e : framed (real_like w live e).
Proof.
  unfold real_like. destruct (alloc_failure w e); [apply framed_throw|].
  apply framed_bind; [apply framed_fresh_id|]. intros i.
  apply framed_bind; [|intros; apply framed_ret].
  intros p. by split.
Qed.

Lemma framed_to_real_tensor w live acc e : framed (to_real_tensor w live acc e).
Proof.
  unfold to_real_tensor. apply framed_bind; [apply framed_get_cls_fake_mode|].
  intros fm. destruct e as [t|z]; [|apply framed_ret].
  destruct (is_our_fake fm (LTensor t)); [|apply framed_ret].
  apply framed_bind; [apply framed_real_like | intros; apply framed_ret].
Qed.

Lemma framed_realize w live flat acc : framed (realize w live acc flat).
Proof.
  revert acc. induction flat as [|e flat IH]; intros acc; [apply framed_ret|].
  simpl. apply framed_bind; [apply framed_to_real_tensor | intros; apply IH].
Qed.

Lemma framed_launch w f flat : framed (launch w f flat).
Proof. intros p. by split. Qed.

Lemma framed_launch_n w f flat n : framed (launch_n w f flat n).
Proof.
  induction n as [|n IH]; [apply framed_ret|].
  simpl. apply framed_bind; [apply framed_launch | intros; apply IH].
Qed.

Lemma framed_no_dispatch_block w f a kw : framed (no_dispatch_block w f a kw).
Proof.
  unfold no_dispatch_block.
  apply framed_bind; [apply framed_realize|]. intros [flat impls].
  apply framed_bind; [destruct kw; [apply framed_ret | apply framed_throw]|].
  intros _. apply framed_bind; [apply framed_launch|]. intros r.
  apply framed_bind; [apply framed_launch_n|]. intros _.
  apply framed_bind; [apply framed_launch_n|]. intros _.
  apply framed_ret.
Qed.

Lemma framed_from_real_tensor live e : framed (from_real_tensor live e).
Proof.
  unfold from_real_tensor. apply framed_bind; [apply framed_get_cls_fake_mode|].
  intros fm. apply framed_bind; [apply framed_fresh_id | intros; apply framed_ret].
Qed.

Lemma framed_map_out live impls st ex e : framed (map_out live impls st ex e).
Proof.
  unfold map_out. destruct (unsupported_alias impls st e); [apply framed_throw|].
  destruct e as [t|z]; [|apply framed_ret].
  destruct (impls !! obj_id t); [apply framed_ret|].
  apply framed_bind; [apply framed_from_real_tensor | intros; apply framed_ret].
Qed.

Lemma framed_tree_map_out live impls st ex r : framed (tree_map_out live impls st ex r).
Proof.
  induction r as [|e r IH]; [apply framed_ret|].
  simpl. apply framed_bind; [apply framed_map_out|]. intros e'.
  apply framed_bind; [apply IH | intros; apply framed_ret].
Qed.

Lemma framed_fallback w f a kw ex :
  framed (_maybe_run_and_benchmark_fallback_kernel w f a kw ex).
Proof.
  unfold _maybe_run_and_benchmark_fallback_kernel.
  destruct (bool_decide (inplace_view ∈ tags f)); [apply framed_throw|].
  apply framed_bind; [apply framed_no_dispatch_block|].
  intros [[[flat impls] r] t].
  apply framed_bind; [apply framed_tree_map_out | intros; apply framed_ret].
Qed.

(** *** Unsupported aliasing *)

Lemma map_out_returns live impls st ex e p fm :
  cls_fake_mode p = Some fm →
  unsupported_alias impls st e = false →
  ∃ e', (map_out live impls st ex e p).2 = Ok e'.
Proof.
  intros Hfm Hu. unfold map_out. rewrite Hu.
  destruct e as [t|z]; [|by eexists].
  destruct (impls !! obj_id t); [by eexists|].
  unfold from_real_tensor, get_cls_fake_mode; unbind. rewrite Hfm. simpl.
  by eexists.
Qed.

(** As soon as one output is an unsupported alias, mapping the outputs back
    raises the exception it was given. *)
Lemma tree_map_out_alias live impls st ex r p fm :
  cls_fake_mode p = Some fm →
  (∃ e, e ∈ r ∧ unsupported_alias impls st e = true) →
  (tree_map_out live impls st ex r p).2 = Raise ex.
Proof.
  revert p. induction r as [|e r IH]; intros p Hfm [x [Hx Hu]].
  - by apply elem_of_nil in Hx.
  - simpl. unfold mbind at 1. unfold M_bind at 1.
    destruct (unsupported_alias impls st e) eqn:He.
    + unfold map_out. by rewrite He.
    + destruct (map_out_returns live impls st ex e p fm Hfm He) as [e' He'].
      pose proof (framed_map_out live impls st ex e p) as [Hf _].
      destruct (map_out live impls st ex e p) as [p1 r1]; simpl in *. subst r1.
      unfold mbind at 1. unfold M_bind at 1.
      assert (Hr : (tree_map_out live impls st ex r p1).2 = Raise ex).
      { apply IH; [congruence|]. exists x. split; [|done].
        apply elem_of_cons in Hx as [->|Hx]; [congruence | done]. }
      destruct (tree_map_out live impls st ex r p1) as [p2 r2]; simpl in *.
      by subst r2.
Qed.

(** The case of [map_out] that raises: the fallback is not rejected up
    front, the block under [no_dispatch()] completes, and one of the real
    outputs is a dense tensor in the storage of an input without being a
    recorded realization. *)
Definition unsupported_aliasing (w : World) (inv : Invocation) (p : Proc) : Prop :=
  (inplace_view ∉ tags (func inv))
  ∧ ∃ p1 flat_args inp_impls r t,
      no_dispatch_block w (func inv) (args inv) (kwargs inv) p
      = (p1, Ok (flat_args, inp_impls, r, t))
      ∧ ∃ e, e ∈ r
             ∧ unsupported_alias inp_impls (input_storages flat_args) e = true.

Lemma fallback_unsupported_aliasing w inv p fm ex :
  cls_fake_mode p = Some fm →
  unsupported_aliasing w inv p →
  (_maybe_run_and_benchmark_fallback_kernel w (func inv) (args inv) (kwargs inv)
     ex p).2 = Raise ex.
Proof.
  intros Hfm [Ht (p1 & flat & impls & r & t & Hb & Ha)].
  unfold _maybe_run_and_benchmark_fallback_kernel.
  rewrite bool_decide_eq_false_2 by done.
  unfold mbind at 1. unfold M_bind at 1.
  pose proof (framed_no_dispatch_block w (func inv) (args inv) (kwargs inv) p)
    as [Hf _].
  rewrite Hb in Hf |- *. simpl in Hf.
  unfold mbind at 1. unfold M_bind at 1.
  assert (Hr : (tree_map_out (omap as_tensor (flat ++ r)) impls
                  (input_storages flat) ex r p1).2 = Raise ex).
  { eapply (tree_map_out_alias _ _ _ _ _ _ fm); [by rewrite Hf | exact Ha]. }
  destruct (tree_map_out _ _ _ _ _ p1) as [p2 r2]; simpl in *. by subst r2.
Qed.

(** What the benchmark strategy does with an exception of the fallback. *)
Lemma benchmark_fallback_raises w inv p fm p' e :
  cls_fake_mode p = Some fm →
  _overloadpacket (func inv) ∉ _VIEW_OPS →
  _maybe_run_and_benchmark_fallback_kernel w (func inv) (args inv) (kwargs inv)
    NotImplementedError p = (p', Raise e) →
  _benchmark_estimate w inv p
  = if decide (e = NotImplementedError) then
      (set_no_fallback_kernel
         ({[ _overloadpacket (func inv) ]} ∪ _no_fallback_kernel p') p',
       match run_fake w (func inv) (args inv) (kwargs_or_empty (kwargs inv)) with
       | Ok res => Ok (res, 0%Qc)
       | Raise e' => Raise e'
       end)
    else (p', Raise e).
Proof.
  intros Hfm Hv Hfb. rewrite (benchmark_unfold _ _ _ _ Hfm).
  rewrite decide_True by done. rewrite Hfb.
  destruct (decide (e = NotImplementedError)); [|done].
  by rewrite run_symbolically_spec.
Qed.

(** The statement that a failure of the fallback other than the
    unsupported aliasing is raised to the caller of the benchmark
    strategy. *)
Definition other_failures_propagate : Prop :=
  ∀ w inv p fm p' e,
    cls_fake_mode p = Some fm →
    _overloadpacket (func inv) ∉ _VIEW_OPS →
    _maybe_run_and_benchmark_fallback_kernel w (func inv) (args inv) (kwargs inv)
      NotImplementedError p = (p', Raise e) →
    ¬ unsupported_aliasing w inv p →
    (_benchmark_estimate w inv p).2 = Raise e.

(** The real kernel of the custom operator raises [NotImplementedError] at
    its first launch; this is no aliasing, and yet the benchmark strategy
    records the kind and returns the symbolic result with 0 ms. *)
Lemma kernel_NotImplementedError_is_recovered :
  ¬ unsupported_aliasing Instances.world Instances.cpu_only_call Instances.proc
  ∧ (_benchmark_estimate Instances.world Instances.cpu_only_call Instances.proc).2
    = Ok ([LTensor Instances.lhs], 0%Qc)
  ∧ ¬ other_failures_propagate.
Proof.
  assert (Hn : ¬ unsupported_aliasing Instances.world Instances.cpu_only_call
                 Instances.proc).
  { intros [_ (p1 & flat & impls & r & t & Hb & _)].
    vm_compute in Hb. discriminate. }
  assert (Hb : (_benchmark_estimate Instances.world Instances.cpu_only_call
                  Instances.proc).2 = Ok ([LTensor Instances.lhs], 0%Qc)).
  { qc_eval. }
  split; [exact Hn | split; [exact Hb|]].
  intros H.
  pose proof (H Instances.world Instances.cpu_only_call Instances.proc 1%positive
                (_maybe_run_and_benchmark_fallback_kernel Instances.world
                   Instances.cpu_only_op [LTensor Instances.lhs] (Some [])
                   NotImplementedError Instances.proc).1
                NotImplementedError eq_refl) as H'.
  rewrite Hb in H'. discriminate H'.
  - vm_compute. set_solver.
  - by vm_compute.
  - exact Hn.
Qed.

(** C5 (amended).  With the fake mode assigned and a kind outside
    [_VIEW_OPS]: in the unsupported-aliasing case the fallback raises
    [NotImplementedError]; whenever the fallback raises
    [NotImplementedError], the kind is added to [_no_fallback_kernel] and
    the operator is run symbolically and returned with 0 ms; an exception
    of the fallback other than [NotImplementedError] is raised to the
    caller unchanged. *)
Theorem benchmark_recovers_NotImplementedError
    (w : World) (inv : Invocation) (p : Proc) (fm : positive) :
  cls_fake_mode p = Some fm →
  _overloadpacket (func inv) ∉ _VIEW_OPS →
  let fallback :=
    _maybe_run_and_benchmark_fallback_kernel w (func inv) (args inv)
      (kwargs inv) NotImplementedError p in
  let symbolic :=
    match run_fake w (func inv) (args inv) (kwargs_or_empty (kwargs inv)) with
    | Ok res => Ok (res, 0%Qc)
    | Raise e => Raise e
    end in
  (unsupported_aliasing w inv p → fallback.2 = Raise NotImplementedError)
  ∧ (fallback.2 = Raise NotImplementedError →
     _benchmark_estimate w inv p
     = (set_no_fallback_kernel
          ({[ _overloadpacket (func inv) ]} ∪ _no_fallback_kernel p) fallback.1,
        symbolic))
  ∧ (∀ e, fallback.2 = Raise e → e ≠ NotImplementedError →
     _benchmark_estimate w inv p = (fallback.1, Raise e)).
Proof.
  intros Hfm Hv fallback symbolic.
  split; [|split].
  - intros Ha. by eapply fallback_unsupported_aliasing.
  - intros Hr.
    pose proof (framed_fallback w (func inv) (args inv) (kwargs inv)
                  NotImplementedError p) as [_ Hk].
    fold fallback in Hk.
    rewrite (benchmark_fallback_raises w inv p fm fallback.1 NotImplementedError Hfm Hv).
    + rewrite decide_True by done. by rewrite Hk.
    + fold fallback. rewrite <- Hr. apply surjective_pairing.
  - intros e Hr Hne.
    rewrite (benchmark_fallback_raises w inv p fm fallback.1 e Hfm Hv).
    + by rewrite decide_False.
    + fold fallback. rewrite <- Hr. apply surjective_pairing.
Qed.

Lemma benchmark_recovers_NotImplementedError_witness :
  unsupported_aliasing Instances.world Instances.layer_norm_call Instances.proc
  ∧ (_benchmark_estimate Instances.world Instances.layer_norm_call
       Instances.proc).2
    = Ok ([LTensor Instances.half_out; LTensor Instances.prod], 0%Qc)
  ∧ "aten.native_layer_norm"
    ∈ _no_fallback_kernel
        (_benchmark_estimate Instances.world Instances.layer_norm_call
           Instances.proc).1.
Proof.
  assert (Ha : unsupported_aliasing Instances.world Instances.layer_norm_call
                 Instances.proc).
  { split; [vm_compute; set_solver|].
    eexists _, _, _, _, _. split; [vm_compute; reflexivity|].
    eexists. split; [apply list_elem_of_here|]. by vm_compute. }
  pose proof (benchmark_recovers_NotImplementedError Instances.world
                Instances.layer_norm_call Instances.proc 1%positive) as H.
  simpl in H. destruct H as (H1 & H2 & _).
  - reflexivity.
  - vm_compute. set_solver.
  - split; [exact Ha|]. rewrite (H2 (H1 Ha)). split; [reflexivity|].
    simpl. set_solver.
Defined.

(** ** Activation and deactivation *)

(** The accumulators of an estimator are in their reset state. *)
Definition accumulators_reset (self : Estimator) : Prop :=
  mod_runtimes self = ∅
  ∧ mod_fw_pre_order self = [] ∧ mod_bw_pre_order self = []
  ∧ mod_fw_post_order self = [] ∧ mod_bw_post_order self = []
  ∧ total_runtime self = 0%Qc.

(** Two estimators hold the same accumulators. *)
Definition same_accumulators (self self' : Estimator) : Prop :=
  mod_runtimes self' = mod_runtimes self
  ∧ mod_fw_pre_order self' = mod_fw_pre_order self
  ∧ mod_bw_pre_order self' = mod_bw_pre_order self
  ∧ mod_fw_post_order self' = mod_fw_post_order self
  ∧ mod_bw_post_order self' = mod_bw_post_order self
  ∧ total_runtime self' = total_runtime self.

(** C8.  Without a live fake mode, [__enter__] fails its assertion and
    leaves the process and the estimator as they were: no accumulator is
    written, no hook is registered, the instance is not put on the mode
    stack, and no event of the block is run. *)
Theorem enter_without_fake_mode_fails
    (w : World) (self : Estimator) (p : Proc) (evs : list Event) :
  active_fake_mode w = None →
  __enter__ w self p = ((p, self), Raise AssertionError)
  ∧ with_block w self evs p = ((p, self), [], Raise AssertionError).
Proof.
  intros H. unfold with_block, __enter__. by rewrite H.
Qed.

Lemma enter_without_fake_mode_fails_witness :
  __enter__ Instances.world_no_fake_mode
    (__call__ __init__ "operator-level-benchmark").1 Instances.proc
  = ((Instances.proc, (__call__ __init__ "operator-level-benchmark").1),
     Raise AssertionError).
Proof.
  apply (enter_without_fake_mode_fails Instances.world_no_fake_mode
           (__call__ __init__ "operator-level-benchmark").1 Instances.proc []).
  reflexivity.
Defined.

Lemma enter_resets w self p fm :
  active_fake_mode w = Some fm →
  (__enter__ w self p).2 = Ok tt
  ∧ accumulators_reset (__enter__ w self p).1.2
  ∧ dispatching (__enter__ w self p).1.2 = true
  ∧ user_hooks_registered (_mod_tracker (__enter__ w self p).1.2) = true
  ∧ _estimate_mode_type (__enter__ w self p).1.2 = _estimate_mode_type self
  ∧ _estimate (__enter__ w self p).1.2 = _estimate self.
Proof. intros H. unfold __enter__. rewrite H. simpl. by repeat split. Qed.

Lemma step_mode_type w st ev :
  _estimate_mode_type (step w st ev).1.1.2 = _estimate_mode_type st.2.
Proof.
  destruct st as [p self]. destruct ev as [sc bw|h fqn|inv]; simpl.
  - done.
  - unfold fire_hook. destruct (user_hooks_registered _); [|done]. by destruct h.
  - destruct (dispatching self); [|done].
    unfold dispatch_body. destruct (_estimate self); [|done].
    destruct (run_strategy w s inv p) as [p' [[res t]|e]]; done.
Qed.

Lemma run_window_mode_type w st evs :
  _estimate_mode_type (run_window w st evs).1.1.2 = _estimate_mode_type st.2.
Proof.
  revert st. induction evs as [|ev evs IH]; intros st; [done|].
  simpl. pose proof (step_mode_type w st ev) as Hs.
  destruct (step w st ev) as [[st' a] [[]|e]]; simpl in *; [|done].
  specialize (IH st'). destruct (run_window w st' evs) as [[st'' log] r].
  simpl in *. congruence.
Qed.

(** The statement that leaving the block resets the accumulators. *)
Definition exit_resets_accumulators : Prop :=
  ∀ w self evs p fm mode,
    active_fake_mode w = Some fm →
    _estimate_mode_type self = Some mode →
    accumulators_reset (with_block w self evs p).1.1.2.

(** One scope is opened, its pre-forward hook fires and [randn] is
    benchmarked inside it: after [__exit__] the estimator still holds 1 ms
    in total and for the scope, and the scope in its pre-forward log. *)
Lemma accumulators_survive_exit :
  let self := (__call__ __init__ "operator-level-benchmark").1 in
  let evs := [EvTracker ["Global"] false; EvHook pre_fw_hook "Global";
              EvOp Instances.randn_call] in
  let after := (with_block Instances.world self evs Instances.proc).1.1.2 in
  total_runtime after = 1%Qc
  ∧ scope_runtime (mod_runtimes after) "Global" "fw" = 1%Qc
  ∧ mod_fw_pre_order after = ["Global"]
  ∧ user_hooks_registered (_mod_tracker after) = false
  ∧ ¬ accumulators_reset after
  ∧ ¬ exit_resets_accumulators.
Proof.
  intros self evs after.
  assert (Ht : total_runtime after = 1%Qc) by qc_eval.
  assert (Hn : ¬ accumulators_reset after).
  { intros (_ & _ & _ & _ & _ & H0). rewrite Ht in H0. discriminate. }
  split; [exact Ht|]. split; [qc_eval|]. split; [by vm_compute|].
  split; [by vm_compute|]. split; [exact Hn|].
  intros H. apply Hn.
  apply (H Instances.world self evs Instances.proc 1%positive
           "operator-level-benchmark"); reflexivity.
Qed.

(** C7 (amended).  Once an estimate mode has been set, [__exit__] returns
    whatever exception ended the block: it removes the hooks of the
    tracker, leaves the tracker, takes the instance off the mode stack, and
    keeps every accumulator as it was; the same holds for the whole block,
    whether or not its events raised, and the exception of the block is
    raised again.  The accumulators are reset by the next [__enter__]. *)
Theorem exit_clears_hooks_keeps_accumulators
    (w : World) (self : Estimator) (p : Proc) (mode : string) :
  _estimate_mode_type self = Some mode →
  (∀ exc,
     (__exit__ self exc p).2 = Ok tt
     ∧ (__exit__ self exc p).1.1 = p
     ∧ user_hooks_registered (_mod_tracker (__exit__ self exc p).1.2) = false
     ∧ tracker_entered (_mod_tracker (__exit__ self exc p).1.2) = false
     ∧ dispatching (__exit__ self exc p).1.2 = false
     ∧ same_accumulators self (__exit__ self exc p).1.2)
  ∧ (∀ fm evs,
       active_fake_mode w = Some fm →
       let entered := (__enter__ w self p).1 in
       let block := with_block w self evs p in
       user_hooks_registered (_mod_tracker block.1.1.2) = false
       ∧ dispatching block.1.1.2 = false
       ∧ same_accumulators (run_window w entered evs).1.1.2 block.1.1.2
       ∧ block.2 = (run_window w entered evs).2)
  ∧ (∀ fm, active_fake_mode w = Some fm →
       accumulators_reset (__enter__ w self p).1.2).
Proof.
  intros Hm. split; [|split].
  - intros exc. unfold __exit__. rewrite Hm. simpl.
    unfold same_accumulators. by repeat split.
  - intros fm evs Hfm entered block.
    destruct (enter_resets w self p fm Hfm) as (He & _ & _ & _ & Hmt & _).
    fold entered in He, Hmt.
    pose proof (run_window_mode_type w entered evs) as Hw.
    subst block. unfold with_block.
    destruct (__enter__ w self p) as [st r] eqn:Hen. simpl in *. subst r entered.
    destruct (run_window w st evs) as [[st' log] r] eqn:Hrw. simpl in *.
    unfold __exit__. rewrite Hw, Hmt, Hm. simpl.
    unfold same_accumulators. by repeat split.
  - intros fm Hfm. by destruct (enter_resets w self p fm Hfm) as (_ & Hr & _).
Qed.

Lemma exit_clears_hooks_keeps_accumulators_witness :
  let self := (__call__ __init__ "operator-level-cost-model").1 in
  let block :=
    with_block Instances.world self [EvOp Instances.mm_call] Instances.proc in
  block.2 = Raise TypeError
  ∧ user_hooks_registered (_mod_tracker block.1.1.2) = false
  ∧ dispatching block.1.1.2 = false.
Proof.
  intros self block.
  pose proof (exit_clears_hooks_keeps_accumulators Instances.world self
                Instances.proc "operator-level-cost-model") as H.
  destruct H as (_ & H & _); [reflexivity|].
  destruct (H 1%positive [EvOp Instances.mm_call] eq_refl) as (Hh & Hd & _ & Hr).
  split; [|split; [exact Hh | exact Hd]].
  etransitivity; [exact Hr|]. by vm_compute.
Defined.

(** ** Attribution of elapsed time to scopes *)

Section Attribution.

Local Open Scope Qc_scope.

(** The sum of the given times. *)
Definition sum_times (l : list Qc) : Qc := foldr Qcplus 0 l.

(** An interception happened while scope [fqn] was open in phase [bw]. *)
Definition during (fqn : string) (bw : bool) (a : Attribution) : bool :=
  bool_decide (fqn ∈ at_scopes a) && bool_decide (at_bw a = bw).

(** The elapsed times of exactly the interceptions that returned while
    scope [fqn] was open and the phase was [bw], summed. *)
Definition attributed (fqn : string) (bw : bool) (log : list Attribution) : Qc :=
  sum_times (map at_time (filter (fun a => during fqn bw a = true) log)).

Lemma attributed_nil fqn bw : attributed fqn bw [] = 0.
Proof. done. Qed.

Lemma attributed_cons fqn bw a log :
  attributed fqn bw (a :: log)
  = (if during fqn bw a then at_time a else 0) + attributed fqn bw log.
Proof.
  unfold attributed. rewrite filter_cons.
  destruct (decide (during fqn bw a = true)) as [E|E].
  - by rewrite E.
  - apply not_true_is_false in E. rewrite E. unfold sum_times. ring.
Qed.

Lemma scope_runtime_empty fqn key : scope_runtime ∅ fqn key = 0.
Proof. unfold scope_runtime. by rewrite !lookup_empty. Qed.

Lemma scope_runtime_add key t (m : gmap string (gmap string Qc)) par fqn key' :
  scope_runtime (add_runtime key t m par) fqn key'
  = if decide (fqn = par ∧ key' = key)
    then scope_runtime m fqn key' + t
    else scope_runtime m fqn key'.
Proof.
  unfold scope_runtime, add_runtime.
  destruct (decide (fqn = par)) as [->|Hp].
  - rewrite lookup_insert_eq. simpl.
    destruct (decide (key' = key)) as [->|Hk].
    + rewrite decide_True by done. by rewrite lookup_insert_eq.
    + rewrite decide_False by (intros [_ ?]; done).
      by rewrite lookup_insert_ne.
  - rewrite decide_False by (intros [? _]; done).
    by rewrite lookup_insert_ne.
Qed.

Lemma scope_runtime_foldl key t scopes :
  NoDup scopes →
  ∀ (m : gmap string (gmap string Qc)) fqn key',
    scope_runtime (foldl (add_runtime key t) m scopes) fqn key'
    = scope_runtime m fqn key'
      + (if decide (fqn ∈ scopes ∧ key' = key) then t else 0).
Proof.
  induction 1 as [|par scopes Hnotin Hnd IH]; intros m fqn key'; cbn [foldl].
  - rewrite decide_False; [ring|]. intros [H _]. by apply elem_of_nil in H.
  - rewrite IH, scope_runtime_add.
    destruct (decide (key' = key)) as [->|Hk].
    + destruct (decide (fqn = par)) as [->|Hp].
      * rewrite decide_True by done.
        rewrite decide_False by (intros [? _]; done).
        rewrite decide_True by (split; [apply list_elem_of_here | done]).
        ring.
      * rewrite decide_False by (intros [? _]; done).
        destruct (decide (fqn ∈ scopes)) as [Hin|Hin].
        -- rewrite decide_True by done.
           rewrite decide_True
             by (split; [by apply list_elem_of_further | done]).
           done.
        -- rewrite decide_False by (intros [? _]; done).
           rewrite decide_False; [done|].
           intros [H _]. apply elem_of_cons in H as [?|?]; done.
    + rewrite !decide_False by (intros [_ ?]; done). ring.
Qed.

Lemma phase_key_inj bw bw' : phase_key bw = phase_key bw' → bw = bw'.
Proof. by destruct bw, bw'. Qed.

(** What one event adds to the accumulators. *)
Lemma step_accumulates w st ev :
  Forall (fun a => NoDup (at_scopes a)) (option_list (step w st ev).1.2) →
  (∀ fqn bw,
     scope_runtime (mod_runtimes (step w st ev).1.1.2) fqn (phase_key bw)
     = scope_runtime (mod_runtimes st.2) fqn (phase_key bw)
       + attributed fqn bw (option_list (step w st ev).1.2))
  ∧ total_runtime (step w st ev).1.1.2
    = total_runtime st.2 + sum_times (map at_time (option_list (step w st ev).1.2)).
Proof.
  destruct st as [p self]. unfold attributed.
  destruct ev as [sc bw0|h fqn0|inv]; simpl.
  - intros _. split; [intros; simpl; ring | ring].
  - intros _. unfold fire_hook.
    destruct (user_hooks_registered _); [destruct h|]; simpl;
      (split; [intros; ring | ring]).
  - destruct (dispatching self); [|intros _; simpl; split; [intros; ring | ring]].
    unfold dispatch_body. destruct (_estimate self) as [s|];
      [|intros _; simpl; split; [intros; ring | ring]].
    destruct (run_strategy w s inv p) as [p' [[res t]|e]]; simpl;
      [|intros _; split; [intros; ring | ring]].
    intros Hnd. apply Forall_cons in Hnd as [Hnd _]. simpl in Hnd.
    split; [|ring].
    intros fqn bw. rewrite (scope_runtime_foldl _ _ _ Hnd).
    fold (attributed fqn bw
            [mkAttr (parents (_mod_tracker self)) (is_bw (_mod_tracker self)) t]).
    rewrite attributed_cons, attributed_nil. unfold during. simpl.
    f_equal.
    destruct (decide (fqn ∈ parents (_mod_tracker self))) as [Hin|Hin].
    + rewrite (bool_decide_eq_true_2 _ Hin). simpl.
      destruct (decide (is_bw (_mod_tracker self) = bw)) as [<-|Hb].
      * rewrite decide_True by done.
        rewrite bool_decide_eq_true_2 by done. ring.
      * rewrite decide_False
          by (intros [_ H]; by apply phase_key_inj in H).
        rewrite bool_decide_eq_false_2 by done. ring.
    + rewrite (bool_decide_eq_false_2 _ Hin). simpl.
      rewrite decide_False by (intros [? _]; done). ring.
Qed.

End Attribution.

Section Window.

Local Open Scope Qc_scope.

Lemma sum_times_app l1 l2 : sum_times (l1 ++ l2) = sum_times l1 + sum_times l2.
Proof.
  unfold sum_times. induction l1 as [|t l1 IH]; simpl; [ring|].
  rewrite IH. ring.
Qed.

Lemma attributed_app fqn bw l1 l2 :
  attributed fqn bw (l1 ++ l2) = attributed fqn bw l1 + attributed fqn bw l2.
Proof.
  unfold attributed. by rewrite filter_app, map_app, sum_times_app.
Qed.

(** What a window adds to the accumulators it started from. *)
Lemma run_window_accumulates w evs : ∀ st,
  Forall (fun a => NoDup (at_scopes a)) (run_window w st evs).1.2 →
  (∀ fqn bw,
     scope_runtime (mod_runtimes (run_window w st evs).1.1.2) fqn (phase_key bw)
     = scope_runtime (mod_runtimes st.2) fqn (phase_key bw)
       + attributed fqn bw (run_window w st evs).1.2)
  ∧ total_runtime (run_window w st evs).1.1.2
    = total_runtime st.2 + sum_times (map at_time (run_window w st evs).1.2).
Proof.
  induction evs as [|ev evs IH]; intros st; simpl.
  - intros _. split; [intros; rewrite attributed_nil; ring | ring].
  - pose proof (step_accumulates w st ev) as Hs.
    destruct (step w st ev) as [[st' a] [[]|e]]; simpl in *.
    + specialize (IH st').
      destruct (run_window w st' evs) as [[st'' log] r]; simpl in *.
      intros Hnd. apply Forall_app in Hnd as [Hnd1 Hnd2].
      destruct (Hs Hnd1) as [Hs1 Hs2]. destruct (IH Hnd2) as [IH1 IH2].
      split.
      * intros fqn bw. rewrite IH1, Hs1, attributed_app. ring.
      * rewrite IH2, Hs2, map_app, sum_times_app. ring.
    + intros Hnd. exact (Hs Hnd).
Qed.

(** A scope that is open whenever another one is accumulates at least as
    much, as long as no elapsed time is negative. *)
Lemma attributed_mono anc desc bw log :
  (∀ a, a ∈ log → desc ∈ at_scopes a → anc ∈ at_scopes a) →
  Forall (fun a => 0 <= at_time a) log →
  attributed desc bw log <= attributed anc bw log.
Proof.
  induction log as [|a log IH]; intros Hsub Hpos.
  - rewrite !attributed_nil. apply Qcle_refl.
  - apply Forall_cons in Hpos as [Ha Hpos].
    rewrite !attributed_cons.
    apply Qcplus_le_compat.
    + unfold during.
      destruct (decide (desc ∈ at_scopes a)) as [Hd|Hd].
      * rewrite (bool_decide_eq_true_2 _ Hd).
        rewrite (bool_decide_eq_true_2 (anc ∈ at_scopes a))
          by (apply Hsub; [apply list_elem_of_here | done]).
        apply Qcle_refl.
      * rewrite (bool_decide_eq_false_2 _ Hd). simpl.
        destruct (bool_decide (anc ∈ at_scopes a) && bool_decide (at_bw a = bw));
          [exact Ha | apply Qcle_refl].
    + apply IH; [|done]. intros a' Hin. apply Hsub. by apply list_elem_of_further.
Qed.

Lemma exit_keeps_runtimes self exc p :
  mod_runtimes (__exit__ self exc p).1.2 = mod_runtimes self
  ∧ total_runtime (__exit__ self exc p).1.2 = total_runtime self.
Proof. unfold __exit__. by destruct (_estimate_mode_type self). Qed.

(** The accumulators an activation leaves behind, in terms of its log. *)
Lemma with_block_accumulates w self evs p fm :
  active_fake_mode w = Some fm →
  Forall (fun a => NoDup (at_scopes a)) (with_block w self evs p).1.2 →
  (∀ fqn bw,
     scope_runtime (mod_runtimes (with_block w self evs p).1.1.2) fqn (phase_key bw)
     = attributed fqn bw (with_block w self evs p).1.2)
  ∧ total_runtime (with_block w self evs p).1.1.2
    = sum_times (map at_time (with_block w self evs p).1.2).
Proof.
  intros Hfm.
  destruct (enter_resets w self p fm Hfm) as (He & (Hm & _ & _ & _ & _ & Ht) & _).
  unfold with_block.
  destruct (__enter__ w self p) as [st r]; simpl in *. subst r.
  pose proof (run_window_accumulates w evs st) as Hw.
  destruct (run_window w st evs) as [[st' log] r]; simpl in *.
  pose proof (exit_keeps_runtimes st'.2
                (match r with Ok _ => None | Raise e => Some e end) st'.1)
    as [Hx1 Hx2].
  destruct (__exit__ _ _ _) as [st'' [[]|e]]; simpl in *;
    intros Hnd; destruct (Hw Hnd) as [Hw1 Hw2];
    rewrite Hx1, Hx2;
    (split; [intros fqn bw; rewrite Hw1, Hm, scope_runtime_empty; ring
            | rewrite Hw2, Ht; ring]).
Qed.

End Window.

(** C2.  For an activation window in which the tracker reports every open
    scope once: for every scope and phase, the accumulated time recorded
    equals the sum of the elapsed times of exactly the interceptions that
    returned while the scope was open in that phase; the total runtime is
    the sum of all elapsed times; and, elapsed times being non-negative, a
    scope that is open whenever another one is (its ancestor) holds at least
    as much as that one, per phase and over both phases. *)
Theorem scope_time_is_sum_of_open_invocations
    (w : World) (self : Estimator) (evs : list Event) (p : Proc) (fm : positive) :
  active_fake_mode w = Some fm →
  let after := (with_block w self evs p).1.1.2 in
  let log := (with_block w self evs p).1.2 in
  Forall (fun a => NoDup (at_scopes a)) log →
  (∀ fqn bw,
     scope_runtime (mod_runtimes after) fqn (phase_key bw) = attributed fqn bw log)
  ∧ total_runtime after = sum_times (map at_time log)
  ∧ (∀ anc desc,
       (∀ a, a ∈ log → desc ∈ at_scopes a → anc ∈ at_scopes a) →
       Forall (fun a => (0 <= at_time a)%Qc) log →
       (∀ bw, (scope_runtime (mod_runtimes after) desc (phase_key bw)
               <= scope_runtime (mod_runtimes after) anc (phase_key bw))%Qc)
       ∧ (scope_runtime (mod_runtimes after) desc "fw"
          + scope_runtime (mod_runtimes after) desc "bw"
          <= scope_runtime (mod_runtimes after) anc "fw"
             + scope_runtime (mod_runtimes after) anc "bw")%Qc).
Proof.
  intros Hfm after log Hnd.
  destruct (with_block_accumulates w self evs p fm Hfm Hnd) as [Hs Ht].
  fold after log in Hs, Ht.
  split; [exact Hs | split; [exact Ht|]].
  intros anc desc Hsub Hpos.
  assert (Hb : ∀ bw, (scope_runtime (mod_runtimes after) desc (phase_key bw)
                      <= scope_runtime (mod_runtimes after) anc (phase_key bw))%Qc).
  { intros bw. rewrite !Hs. by apply attributed_mono. }
  split; [exact Hb|].
  apply Qcplus_le_compat; [exact (Hb false) | exact (Hb true)].
Qed.

Lemma scope_time_is_sum_of_open_invocations_witness :
  let self := (__call__ __init__ "operator-level-benchmark").1 in
  let evs := [EvTracker ["Global"] false; EvOp Instances.randn_call;
              EvTracker ["Global"; "Global.layer"] false;
              EvOp Instances.randn_call;
              EvTracker ["Global"; "Global.layer"] true;
              EvOp Instances.randn_call] in
  let after := (with_block Instances.world self evs Instances.proc).1.1.2 in
  let log := (with_block Instances.world self evs Instances.proc).1.2 in
  scope_runtime (mod_runtimes after) "Global" "fw" = attributed "Global" false log
  ∧ attributed "Global" false log = Q2Qc 2
  ∧ attributed "Global.layer" false log = Q2Qc 1
  ∧ total_runtime after = Q2Qc 3.
Proof.
  intros self evs after log.
  pose proof (scope_time_is_sum_of_open_invocations Instances.world self evs
                Instances.proc 1%positive eq_refl) as H.
  destruct H as (Hs & Ht & _).
  - apply (bool_decide_unpack _). by vm_compute.
  - split; [exact (Hs "Global" false)|].
    split; [qc_eval|]. split; [qc_eval|].
    etransitivity; [exact Ht|]. qc_eval.
Defined.


(** * Further properties of the source *)

(** ** Byte counts and transfer time *)

Lemma min_allocate_cases w :
  _PYTORCH_MIN_ALLOCATE (no_cuda_memory_caching w) = 512
  ∨ _PYTORCH_MIN_ALLOCATE (no_cuda_memory_caching w) = 1.
Proof.
  unfold _PYTORCH_MIN_ALLOCATE.
  destruct (no_cuda_memory_caching w =? 0)%Z; [by left | by right].
Qed.



Lemma get_num_bytes_mono w t t' :
  nbytes t ≤ nbytes t' → get_num_bytes w t ≤ get_num_bytes w t'.
Proof.
  intros H. unfold get_num_bytes.
  pose proof (min_allocate_cases w) as Hg.
  set (g := _PYTORCH_MIN_ALLOCATE (no_cuda_memory_caching w)) in *.
  assert (Hpos : 0 < g) by lia.
  apply Z.mul_le_mono_nonneg_r; [lia|].
  unfold ceil_div.
  assert ((- nbytes t') / g ≤ (- nbytes t) / g) by (apply Z.div_le_mono; lia).
  lia.
Qed.

Lemma Z2Qc_le a b : a ≤ b → (Z2Qc a <= Z2Qc b)%Qc.
Proof.
  intros H. unfold Z2Qc, Qcle. simpl. rewrite !Qred_correct.
  by rewrite <- Zle_Qle.
Qed.


(** One leaf weighs no more than another: tensors by their storage size,
    anything else against anything else. *)
Definition leaf_le (x y : leaf) : Prop :=
  match x, y with
  | LTensor t, LTensor t' => nbytes t ≤ nbytes t'
  | LScalar _, LScalar _ => True
  | _, _ => False
  end.

Lemma sum_num_bytes_tensor w t l :
  sum_num_bytes w (LTensor t :: l) = get_num_bytes w t + sum_num_bytes w l.
Proof. reflexivity. Qed.

Lemma sum_num_bytes_scalar w z l :
  sum_num_bytes w (LScalar z :: l) = sum_num_bytes w l.
Proof. reflexivity. Qed.

Lemma sum_num_bytes_mono w l l' :
  Forall2 leaf_le l l' → sum_num_bytes w l ≤ sum_num_bytes w l'.
Proof.
  induction 1 as [|x y l l' Hxy _ IH]; [done|].
  destruct x as [t|z], y as [t'|z']; try contradiction.
  - rewrite !sum_num_bytes_tensor.
    pose proof (get_num_bytes_mono w t t' Hxy). lia.
  - by rewrite !sum_num_bytes_scalar.
Qed.

(** X3.  For a positive bandwidth the transfer time does not decrease when
    the storage sizes of operands and outputs grow; the operator kind is not
    an input of the computation at all. *)
Theorem transfer_time_monotone
    (w : World) (a a' o o' : list leaf) (t t' : Qc) :
  (0 < get_gpu_dram_gbps w)%Qc →
  Forall2 leaf_le a a' → Forall2 leaf_le o o' →
  call_function (_get_transfer_time w) [VLeaves a; VLeaves o] = Ok t →
  call_function (_get_transfer_time w) [VLeaves a'; VLeaves o'] = Ok t' →
  (t <= t')%Qc.
Proof.
  intros Hb Ha Ho. rewrite !function_transfer_time. unfold fdiv.
  destruct (decide (get_gpu_dram_gbps w = 0%Qc)) as [Hz|Hz]; [discriminate|].
  intros [= <-] [= <-]. unfold Qcdiv.
  apply Qcmult_le_compat_r.
  - apply Z2Qc_le.
    pose proof (sum_num_bytes_mono w a a' Ha).
    pose proof (sum_num_bytes_mono w o o' Ho). lia.
  - apply Qclt_le_weak. by apply Qcinv_pos.
Qed.

Lemma transfer_time_monotone_witness :
  (Q2Qc (8192 # 1000) <= Q2Qc (32768 # 1000))%Qc.
Proof.
  apply (transfer_time_monotone Instances.world
           [LTensor Instances.rhs; LScalar 1] [LTensor Instances.lhs; LScalar 2]
           [] []).
  - by vm_compute.
  - repeat constructor; simpl; lia.
  - constructor.
  - qc_eval.
  - qc_eval.
Defined.

(** ** Output precisions and compute time *)

Lemma float_out_dtypes_members (flat_outs : list leaf) :
  ∀ d, d ∈ float_out_dtypes flat_outs
       ↔ d ∈ _float_types ∧ ∃ t, LTensor t ∈ flat_outs ∧ t_dtype t = d.
Proof.
  unfold float_out_dtypes.
  intros d. rewrite elem_of_remove_dups, list_elem_of_filter, list_elem_of_fmap.
  split.
  - intros [Hf [t [-> Ht]]]. split; [done|]. exists t. split; [|done].
    apply list_elem_of_omap in Ht as [x [Hx Hxt]].
    destruct x; simpl in Hxt; [|done]. by injection Hxt as ->.
  - intros [Hf [t [Ht <-]]]. split; [done|]. exists t. split; [done|].
    apply list_elem_of_omap. by exists (LTensor t).
Qed.

(** X4.  The set of output precisions built by the roofline and learned
    strategies holds each precision once, and holds exactly the floating
    precisions ([float16], [bfloat16], [float32], [float64]) of the tensor
    outputs: integer, boolean and complex outputs and non-tensor outputs
    never enter it. *)
Theorem float_out_dtypes_spec (flat_outs : list leaf) :
  NoDup (float_out_dtypes flat_outs)
  ∧ ∀ d, d ∈ float_out_dtypes flat_outs
         ↔ d ∈ _float_types ∧ ∃ t, LTensor t ∈ flat_outs ∧ t_dtype t = d.
Proof.
  split; [apply NoDup_remove_dups | apply float_out_dtypes_members].
Qed.

(** X5.  For a kind with a registered flop formula whose outputs carry no
    floating precision at all (integer outputs, or no tensor output),
    [get_compute_time] fails its single-precision assertion: the formula is
    not evaluated. *)
Theorem compute_time_without_float_output
    (w : World) (p : Proc) (k : string) (f : FlopFormula) (a out : list leaf) :
  flop_registry p !! k = Some f →
  (∀ t, LTensor t ∈ out → t_dtype t ∉ _float_types) →
  get_compute_time w p k a out (float_out_dtypes out) = Raise AssertionError.
Proof.
  intros Hk Hnf. eapply compute_time_ambiguous; [exact Hk|].
  destruct (float_out_dtypes out) as [|d l] eqn:E; [done|].
  exfalso.
  assert (Hd : d ∈ float_out_dtypes out) by (rewrite E; apply list_elem_of_here).
  apply float_out_dtypes_members in Hd as [Hf [t [Ht <-]]].
  by apply (Hnf t).
Qed.

Lemma compute_time_without_float_output_witness :
  get_compute_time Instances.world Instances.proc "aten.mm"
    [LTensor Instances.lhs; LTensor Instances.rhs]
    [LTensor (Instances.fake 20 int64 [128; 32] 32768); LScalar 7]
    (float_out_dtypes [LTensor (Instances.fake 20 int64 [128; 32] 32768); LScalar 7])
  = Raise AssertionError.
Proof.
  apply (compute_time_without_float_output Instances.world Instances.proc
           "aten.mm" Instances.mm_flop).
  - by vm_compute.
  - intros t Ht. apply elem_of_cons in Ht as [Heq|Ht].
    + injection Heq as ->. apply (bool_decide_unpack _). by vm_compute.
    + apply elem_of_cons in Ht as [?|Ht]; [done|]. by apply elem_of_nil in Ht.
Defined.

(** ** Configuration and call binding *)

(** The mode names [__call__] accepts. *)
Definition supported_modes : list string :=
  ["operator-level-benchmark"; "operator-level-cost-model";
   "operator-level-learned-model"].

(** X6.  [__call__] accepts exactly three mode names.  On any other name,
    including ["operator-level-learned-cost-model"] which its docstring
    lists as supported, it raises [NotImplementedError] and leaves the
    estimator as it was; on an accepted name it records the name and a
    strategy and touches no accumulator. *)
Theorem call_accepts_three_modes (self : Estimator) (mode : string) :
  ((__call__ self mode).2 = Ok tt ↔ mode ∈ supported_modes)
  ∧ (mode ∉ supported_modes →
     __call__ self mode = (self, Raise NotImplementedError))
  ∧ (mode ∈ supported_modes →
     _estimate_mode_type (__call__ self mode).1 = Some mode
     ∧ is_Some (_estimate (__call__ self mode).1)
     ∧ same_accumulators self (__call__ self mode).1)
  ∧ (__call__ self "operator-level-learned-cost-model").2
    = Raise NotImplementedError.
Proof.
  assert (Hmem : mode ∈ supported_modes
                 ↔ mode = "operator-level-benchmark"
                   ∨ mode = "operator-level-cost-model"
                   ∨ mode = "operator-level-learned-model").
  { unfold supported_modes. rewrite !elem_of_cons, elem_of_nil. tauto. }
  rewrite Hmem. unfold __call__, same_accumulators.
  split; [|split; [|split; [|done]]].
  - destruct (decide (mode = "operator-level-benchmark")) as [E1|E1];
      [simpl; tauto|].
    destruct (decide (mode = "operator-level-cost-model")) as [E2|E2];
      [simpl; tauto|].
    destruct (decide (mode = "operator-level-learned-model")) as [E3|E3];
      [simpl; tauto|].
    simpl. split; [discriminate | tauto].
  - intros Hn. rewrite !decide_False; [done | tauto..].
  - intros Hin.
    destruct (decide (mode = "operator-level-benchmark")) as [E1|E1];
      [simpl; by repeat split; eauto|].
    destruct (decide (mode = "operator-level-cost-model")) as [E2|E2];
      [simpl; by repeat split; eauto|].
    destruct (decide (mode = "operator-level-learned-model")) as [E3|E3];
      [simpl; by repeat split; eauto|].
    tauto.
Qed.

(** X7.  A [@classmethod] whose parameter list has no slot for the class
    cannot be called through the class with one argument per declared
    parameter: the bound call passes one argument more and raises
    [TypeError]. *)
Theorem bound_call_without_cls_slot_raises
    {A : Type} (f : PyFunction A) (actuals : list pyval) :
  length actuals = length (params f) →
  call_classmethod f actuals = Raise TypeError.
Proof.
  intros H. unfold call_classmethod, call_function.
  rewrite bind_params_length; [done|]. simpl. lia.
Qed.

Lemma bound_call_without_cls_slot_raises_witness :
  call_classmethod (_learned_estimate_predictor Instances.world)
    [VPacket "aten.mm"; VLeaves [LTensor Instances.lhs; LTensor Instances.rhs];
     VKwargs []; VLeaves [LTensor Instances.prod]; VDtypes [float32]]
  = Raise TypeError.
Proof.
  apply (bound_call_without_cls_slot_raises
           (_learned_estimate_predictor Instances.world)).
  reflexivity.
Defined.

(** ** What a strategy may change in the process *)

Lemma learned_keeps_process w inv p : (_learned_estimate w inv p).1 = p.
Proof.
  unfold _learned_estimate; unbind.
  destruct (cuda_is_available w); simpl; [|done].
  destruct (run_fake _ _ _ _); simpl; [|done].
  by destruct (decide (_overloadpacket (func inv) ∉ _IGNORE_OPS)).
Qed.

Lemma benchmark_frame w inv p :
  cls_fake_mode (_benchmark_estimate w inv p).1 = cls_fake_mode p
  ∧ _no_fallback_kernel p ⊆ _no_fallback_kernel (_benchmark_estimate w inv p).1
  ∧ _no_fallback_kernel (_benchmark_estimate w inv p).1
    ⊆ {[ _overloadpacket (func inv) ]} ∪ _no_fallback_kernel p.
Proof.
  destruct (cls_fake_mode p) as [fm|] eqn:Hfm.
  - rewrite (benchmark_unfold _ _ _ _ Hfm).
    destruct (decide (_overloadpacket (func inv) ∉ _VIEW_OPS)).
    + pose proof (framed_fallback w (func inv) (args inv) (kwargs inv)
                    NotImplementedError p) as [Hf Hk].
      destruct (_maybe_run_and_benchmark_fallback_kernel _ _ _ _ _ p)
        as [p' [rt|e]]; simpl in *.
      * split; [congruence|]. revert Hk.
        generalize (_no_fallback_kernel p') (_no_fallback_kernel p).
        intros ?? ->. set_solver.
      * destruct (decide (e = NotImplementedError)).
        -- rewrite run_symbolically_spec. simpl. split; [congruence|].
           revert Hk. generalize (_no_fallback_kernel p') (_no_fallback_kernel p).
           intros ?? ->. set_solver.
        -- simpl. split; [congruence|]. revert Hk.
           generalize (_no_fallback_kernel p') (_no_fallback_kernel p).
           intros ?? ->. set_solver.
    + rewrite run_symbolically_spec. simpl. rewrite Hfm. set_solver.
  - rewrite (benchmark_no_fake_mode _ _ _ Hfm). simpl. rewrite Hfm. set_solver.
Qed.

(** X8.  Whatever the strategy and the interception, and whether it returns
    or raises: the fake mode stored on the class is not changed, the set
    [_no_fallback_kernel] only grows, and it grows by at most the kind of
    the intercepted operator; only the benchmark strategy can add to it. *)
Theorem strategy_only_grows_no_fallback_kernel
    (w : World) (s : Strategy) (inv : Invocation) (p : Proc) :
  let p' := (run_strategy w s inv p).1 in
  cls_fake_mode p' = cls_fake_mode p
  ∧ _no_fallback_kernel p ⊆ _no_fallback_kernel p'
  ∧ _no_fallback_kernel p' ⊆ {[ _overloadpacket (func inv) ]} ∪ _no_fallback_kernel p
  ∧ (s ≠ Benchmark → _no_fallback_kernel p' = _no_fallback_kernel p).
Proof.
  destruct s; simpl.
  - destruct (benchmark_frame w inv p) as (H1 & H2 & H3). by repeat split.
  - repeat split; set_solver.
  - rewrite learned_keeps_process. repeat split; set_solver.
Qed.

(** ** Interception and the order logs *)

(** X9.  [__torch_dispatch__] is all-or-nothing on the estimator: when the
    strategy raises, or when no strategy was ever set (then with
    [AttributeError]), no scope record and not the total are touched; when it
    returns, the total grows by exactly the elapsed time returned and the
    order logs are untouched. *)
Theorem dispatch_is_all_or_nothing
    (w : World) (self : Estimator) (inv : Invocation) (p : Proc) :
  let r := dispatch_body w self inv p in
  (∀ e, r.2 = Raise e → r.1.2 = self)
  ∧ (_estimate self = None → r = ((p, self), Raise AttributeError))
  ∧ (∀ res t, r.2 = Ok (res, t) →
       total_runtime r.1.2 = (total_runtime self + t)%Qc
       ∧ mod_fw_pre_order r.1.2 = mod_fw_pre_order self
       ∧ mod_bw_pre_order r.1.2 = mod_bw_pre_order self
       ∧ mod_fw_post_order r.1.2 = mod_fw_post_order self
       ∧ mod_bw_post_order r.1.2 = mod_bw_post_order self
       ∧ (__torch_dispatch__ w self inv p).2 = Ok res).
Proof.
  unfold __torch_dispatch__, dispatch_body.
  destruct (_estimate self) as [s|]; simpl.
  - destruct (run_strategy w s inv p) as [p' [[res t]|e]]; simpl.
    + split; [discriminate|]. split; [discriminate|].
      intros res' t' [= <- <-]. by repeat split.
    + split; [done|]. split; discriminate.
  - split; [done|]. split; [done | discriminate].
Qed.

Lemma step_keeps_switches w st ev :
  user_hooks_registered (_mod_tracker (step w st ev).1.1.2)
  = user_hooks_registered (_mod_tracker st.2)
  ∧ dispatching (step w st ev).1.1.2 = dispatching st.2
  ∧ _estimate (step w st ev).1.1.2 = _estimate st.2.
Proof.
  destruct st as [p self]. destruct ev as [sc bw|h fqn|inv]; simpl.
  - done.
  - unfold fire_hook.
    destruct (user_hooks_registered (_mod_tracker self)) eqn:E;
      [destruct h|]; simpl; by rewrite ?E.
  - destruct (dispatching self) eqn:E; [|simpl; by rewrite ?E].
    unfold dispatch_body.
    destruct (_estimate self) as [s|] eqn:E2; [|simpl; by rewrite ?E, ?E2].
    destruct (run_strategy w s inv p) as [p' [[res t]|e]]; simpl;
      by rewrite ?E, ?E2.
Qed.

Lemma run_window_keeps_switches w evs : ∀ st,
  user_hooks_registered (_mod_tracker (run_window w st evs).1.1.2)
  = user_hooks_registered (_mod_tracker st.2)
  ∧ dispatching (run_window w st evs).1.1.2 = dispatching st.2
  ∧ _estimate (run_window w st evs).1.1.2 = _estimate st.2.
Proof.
  induction evs as [|ev evs IH]; intros st; [done|].
  simpl. pose proof (step_keeps_switches w st ev) as (H1 & H2 & H3).
  destruct (step w st ev) as [[st' a] [[]|e]]; simpl in *; [|done].
  specialize (IH st') as (I1 & I2 & I3).
  destruct (run_window w st' evs) as [[st'' log] r]. simpl in *.
  repeat split; congruence.
Qed.

(** X10.  An estimator that is entered without ever having been given a
    mode fails on leaving the block: [__exit__] raises [AttributeError] at
    its first statement, so the hooks stay registered with the tracker and
    the instance stays on the mode stack; inside the block every
    interception raises [AttributeError] as well. *)
Theorem unconfigured_estimator_is_not_deactivated
    (w : World) (self : Estimator) (evs : list Event) (p : Proc) (fm : positive) :
  active_fake_mode w = Some fm →
  _estimate_mode_type self = None →
  _estimate self = None →
  let block := with_block w self evs p in
  block.2 = Raise AttributeError
  ∧ user_hooks_registered (_mod_tracker block.1.1.2) = true
  ∧ dispatching block.1.1.2 = true
  ∧ (∀ inv p', (dispatch_body w (__enter__ w self p).1.2 inv p').2
               = Raise AttributeError).
Proof.
  intros Hfm Hm He block.
  destruct (enter_resets w self p fm Hfm) as (Hen & _ & Hd & Hh & Hmt & Hes).
  split; [|split; [|split]].
  - subst block. unfold with_block.
    destruct (__enter__ w self p) as [st r]; simpl in *. subst r.
    pose proof (run_window_mode_type w st evs) as Hw.
    destruct (run_window w st evs) as [[st' log] r]; simpl in *.
    unfold __exit__. rewrite Hw, Hmt, Hm. done.
  - subst block. unfold with_block.
    destruct (__enter__ w self p) as [st r]; simpl in *. subst r.
    pose proof (run_window_mode_type w st evs) as Hw.
    pose proof (run_window_keeps_switches w evs st) as (K1 & _).
    destruct (run_window w st evs) as [[st' log] r]; simpl in *.
    unfold __exit__. rewrite Hw, Hmt, Hm. simpl. congruence.
  - subst block. unfold with_block.
    destruct (__enter__ w self p) as [st r]; simpl in *. subst r.
    pose proof (run_window_mode_type w st evs) as Hw.
    pose proof (run_window_keeps_switches w evs st) as (_ & K2 & _).
    destruct (run_window w st evs) as [[st' log] r]; simpl in *.
    unfold __exit__. rewrite Hw, Hmt, Hm. simpl. congruence.
  - intros inv p'. unfold dispatch_body. by rewrite Hes, He.
Qed.

Lemma unconfigured_estimator_is_not_deactivated_witness :
  (with_block Instances.world __init__ [EvOp Instances.mm_call] Instances.proc).2
  = Raise AttributeError
  ∧ user_hooks_registered
      (_mod_tracker (with_block Instances.world __init__ [EvOp Instances.mm_call]
                       Instances.proc).1.1.2) = true.
Proof.
  pose proof (unconfigured_estimator_is_not_deactivated Instances.world __init__
                [EvOp Instances.mm_call] Instances.proc 1%positive
                eq_refl eq_refl eq_refl) as (H1 & H2 & _).
  split; [exact H1 | exact H2].
Defined.

(** X11.  An activation starts from scratch: two estimators that agree on
    the strategy, the mode name and the tracker produce the same process,
    the same estimator and the same result from the same block, whatever
    accumulators and order logs an earlier activation left in them. *)
Theorem activation_forgets_previous_accumulators
    (w : World) (self self' : Estimator) (evs : list Event) (p : Proc) :
  _estimate self = _estimate self' →
  _estimate_mode_type self = _estimate_mode_type self' →
  _mod_tracker self = _mod_tracker self' →
  active_fake_mode w ≠ None →
  with_block w self evs p = with_block w self' evs p.
Proof.
  intros He Hm Ht Hfm. unfold with_block, __enter__.
  destruct (active_fake_mode w) as [fm|]; [|done].
  by rewrite He, Hm, Ht.
Qed.

Lemma activation_forgets_previous_accumulators_witness :
  let self := (__call__ __init__ "operator-level-benchmark").1 in
  let evs := [EvTracker ["Global"] false; EvOp Instances.randn_call;
              EvTracker [] false] in
  let used := (with_block Instances.world self evs Instances.proc).1.1.2 in
  with_block Instances.world used evs Instances.proc
  = with_block Instances.world self evs Instances.proc.
Proof.
  intros self evs used.
  apply activation_forgets_previous_accumulators.
  - by vm_compute.
  - by vm_compute.
  - by vm_compute.
  - discriminate.
Defined.

#[global] Instance Hook_eq_dec : EqDecision Hook.
Proof. solve_decision. Defined.

(** The order log a hook writes to. *)
Definition order_log (h : Hook) (self : Estimator) : list string :=
  match h with
  | pre_fw_hook => mod_fw_pre_order self
  | pre_bw_hook => mod_bw_pre_order self
  | post_fw_hook => mod_fw_post_order self
  | post_bw_hook => mod_bw_post_order self
  end.

(** The scope names with which hook [h] fires in a sequence of events. *)
Definition fired (h : Hook) (evs : list Event) : list string :=
  omap (fun ev => match ev with
                  | EvHook h' fqn => if decide (h' = h) then Some fqn else None
                  | _ => None
                  end) evs.

Lemma step_order_log w st ev h :
  user_hooks_registered (_mod_tracker st.2) = true →
  order_log h (step w st ev).1.1.2 = order_log h st.2 ++ fired h [ev].
Proof.
  destruct st as [p self]. intros Hreg. simpl in Hreg.
  destruct ev as [sc bw|h' fqn|inv]; simpl.
  - by rewrite app_nil_r.
  - unfold fire_hook, fired. rewrite Hreg. simpl.
    destruct h, h'; simpl; by rewrite ?app_nil_r.
  - unfold fired. simpl. rewrite app_nil_r.
    destruct (dispatching self); [|done].
    unfold dispatch_body. destruct (_estimate self); [|done].
    destruct (run_strategy w s inv p) as [p' [[res t]|e]]; simpl; by destruct h.
Qed.

Lemma run_window_order_log w evs h : ∀ st,
  user_hooks_registered (_mod_tracker st.2) = true →
  (run_window w st evs).2 = Ok tt →
  order_log h (run_window w st evs).1.1.2 = order_log h st.2 ++ fired h evs.
Proof.
  induction evs as [|ev evs IH]; intros st Hreg.
  - intros _. simpl. by rewrite app_nil_r.
  - simpl. pose proof (step_order_log w st ev h Hreg) as Hs.
    pose proof (step_keeps_switches w st ev) as (Hk & _).
    destruct (step w st ev) as [[st' a] [[]|e]]; simpl in *; [|discriminate].
    specialize (IH st'). rewrite Hk in IH. specialize (IH Hreg).
    destruct (run_window w st' evs) as [[st'' log] r]. simpl in *.
    intros Hr. rewrite (IH Hr), Hs. unfold fired. simpl.
    rewrite <- app_assoc. f_equal.
    by destruct ev as [| h' fqn |]; [| destruct (decide (h' = h)) |].
Qed.

(** X12.  After a block that completed without raising, each of the four
    order logs holds exactly the scope names with which its hook fired
    during the block, in firing order; interceptions and tracker moves add
    nothing to the logs. *)
Theorem order_logs_record_hooks_in_order
    (w : World) (self : Estimator) (evs : list Event) (p : Proc) (fm : positive) :
  active_fake_mode w = Some fm →
  (with_block w self evs p).2 = Ok tt →
  ∀ h, order_log h (with_block w self evs p).1.1.2 = fired h evs.
Proof.
  intros Hfm Hok h.
  destruct (enter_resets w self p fm Hfm)
    as (Hen & (_ & H1 & H2 & H3 & H4 & _) & _ & Hreg & _).
  unfold with_block in *.
  destruct (__enter__ w self p) as [st r]; simpl in *. subst r.
  pose proof (run_window_order_log w evs h st Hreg) as Hw.
  destruct (run_window w st evs) as [[st' log] r]; simpl in *.
  unfold __exit__ in *.
  destruct (_estimate_mode_type st'.2); simpl in *; [|discriminate].
  specialize (Hw Hok).
  destruct h; simpl in *; rewrite Hw; by rewrite ?H1, ?H2, ?H3, ?H4.
Qed.

Lemma order_logs_record_hooks_in_order_witness :
  let self := (__call__ __init__ "operator-level-benchmark").1 in
  let evs := [EvHook pre_fw_hook "Global"; EvHook pre_fw_hook "Global.layer";
              EvOp Instances.randn_call; EvHook post_fw_hook "Global.layer";
              EvHook post_fw_hook "Global"] in
  mod_fw_pre_order (with_block Instances.world self evs Instances.proc).1.1.2
  = ["Global"; "Global.layer"]
  ∧ mod_fw_post_order (with_block Instances.world self evs Instances.proc).1.1.2
    = ["Global.layer"; "Global"].
Proof.
  intros self evs.
  pose proof (order_logs_record_hooks_in_order Instances.world self evs
                Instances.proc 1%positive eq_refl) as H.
  split.
  - apply (H ltac:(by vm_compute) pre_fw_hook).
  - apply (H ltac:(by vm_compute) post_fw_hook).
Defined.

(** ** Registration of the timing formulas *)






(** ** The measured path of the benchmark strategy *)

Lemma M_bind_Ok {A B} (m : M A) (k : A → M B) p p2 b :
  (m ≫= k) p = (p2, Ok b) →
  ∃ p1 a, m p = (p1, Ok a) ∧ k a p1 = (p2, Ok b).
Proof.
  unfold mbind, M_bind. destruct (m p) as [p1 [a|e]]; [|discriminate].
  intros H. by exists p1, a.
Qed.

(** A computation that leaves the launch counter alone. *)
Definition keeps_runs {A} (m : M A) : Prop :=
  ∀ p, kernel_runs (m p).1 = kernel_runs p.

Lemma keeps_runs_ret {A} (a : A) : keeps_runs (mret a : M A).
Proof. by intros p. Qed.

Lemma keeps_runs_throw {A} e : keeps_runs (throw e : M A).
Proof. by intros p. Qed.

Lemma keeps_runs_bind {A B} (m : M A) (k : A → M B) :
  keeps_runs m → (∀ a, keeps_runs (k a)) → keeps_runs (m ≫= k).
Proof.
  intros Hm Hk p. unfold mbind, M_bind.
  specialize (Hm p). destruct (m p) as [p' [a|e]]; simpl in *; [|done].
  by rewrite Hk.
Qed.

Lemma keeps_runs_get_cls_fake_mode : keeps_runs get_cls_fake_mode.
Proof. intros p. unfold get_cls_fake_mode. by destruct (cls_fake_mode p). Qed.

Lemma keeps_runs_fresh_id live : keeps_runs (fresh_id live).
Proof. by intros p. Qed.

Lemma keeps_runs_real_like w live e : keeps_runs (real_like w live e).
Proof.
  unfold real_like. destruct (alloc_failure w e); [apply keeps_runs_throw|].
  apply keeps_runs_bind; [apply keeps_runs_fresh_id|]. intros i.
  apply keeps_runs_bind; [by intros p | intros; apply keeps_runs_ret].
Qed.

Lemma keeps_runs_realize w live flat : ∀ acc, keeps_runs (realize w live acc flat).
Proof.
  induction flat as [|e flat IH]; intros acc; [apply keeps_runs_ret|].
  simpl. apply keeps_runs_bind; [|intros; apply IH].
  unfold to_real_tensor.
  apply keeps_runs_bind; [apply keeps_runs_get_cls_fake_mode|]. intros fm.
  destruct e as [t|z]; [|apply keeps_runs_ret].
  destruct (is_our_fake fm (LTensor t)); [|apply keeps_runs_ret].
  apply keeps_runs_bind; [apply keeps_runs_real_like | intros; apply keeps_runs_ret].
Qed.

Lemma keeps_runs_tree_map_out live impls st ex r :
  keeps_runs (tree_map_out live impls st ex r).
Proof.
  induction r as [|e r IH]; [apply keeps_runs_ret|].
  simpl. apply keeps_runs_bind.
  - unfold map_out. destruct (unsupported_alias impls st e); [apply keeps_runs_throw|].
    destruct e as [t|z]; [|apply keeps_runs_ret].
    destruct (impls !! obj_id t); [apply keeps_runs_ret|].
    apply keeps_runs_bind; [|intros; apply keeps_runs_ret].
    unfold from_real_tensor.
    apply keeps_runs_bind; [apply keeps_runs_get_cls_fake_mode|]. intros fm.
    apply keeps_runs_bind; [apply keeps_runs_fresh_id | intros; apply keeps_runs_ret].
  - intros e'. apply keeps_runs_bind; [apply IH | intros; apply keeps_runs_ret].
Qed.

Lemma launch_n_Ok w f flat n p p' u :
  launch_n w f flat n p = (p', Ok u) →
  kernel_runs p' = (kernel_runs p + n)%nat.
Proof.
  revert p. induction n as [|n IH]; intros p; simpl.
  - intros [= <- _]. lia.
  - intros H. apply M_bind_Ok in H as (p1 & r & Hl & Hn).
    unfold launch in Hl. injection Hl as <- _.
    apply IH in Hn. rewrite Hn. simpl. lia.
Qed.

(** The block under [no_dispatch()], when it completes. *)
Lemma no_dispatch_block_Ok w f a kw p p1 flat impls r t :
  no_dispatch_block w f a kw p = (p1, Ok (flat, impls, r, t)) →
  kernel_runs p1 = (kernel_runs p + 6)%nat
  ∧ run_real w f flat = Ok r
  ∧ t = (elapsed_time w f flat / Z2Qc 3)%Qc
  ∧ is_Some kw.
Proof.
  unfold no_dispatch_block. intros H.
  apply M_bind_Ok in H as (p2 & [flat' impls'] & Hr & H).
  pose proof (keeps_runs_realize w
                (omap as_tensor (tree_flatten_args a (kwargs_or_empty kw)))
                (tree_flatten_args a (kwargs_or_empty kw)) ([], ∅) p) as Hk.
  rewrite Hr in Hk. simpl in Hk.
  apply M_bind_Ok in H as (p3 & [] & Hkw & H).
  destruct kw as [kwl|]; [|discriminate]. injection Hkw as <-.
  apply M_bind_Ok in H as (p4 & r' & Hl & H).
  unfold launch in Hl. injection Hl as <- Hrr.
  apply M_bind_Ok in H as (p5 & [] & Hw & H).
  apply launch_n_Ok in Hw.
  apply M_bind_Ok in H as (p6 & [] & Ha & H).
  apply launch_n_Ok in Ha.
  injection H as <- <- <- <- <-.
  split; [|by repeat split].
  rewrite Ha, Hw. simpl. unfold warmup_iters, actual_iters. lia.
Qed.

(** X14.  What a returned benchmark estimate means.  For a view kind it is
    the symbolic result with 0 ms and an untouched process.  For any other
    kind it is either the measured mean (the timed interval over 3) after
    exactly six real launches, one for the result, two to warm up and three
    timed, or the symbolic result with 0 ms and the kind recorded in
    [_no_fallback_kernel]. *)
Theorem benchmark_estimate_is_measured_or_zero
    (w : World) (inv : Invocation) (p p' : Proc) (res : list leaf) (t : Qc) :
  _benchmark_estimate w inv p = (p', Ok (res, t)) →
  let k := _overloadpacket (func inv) in
  let symbolic := run_fake w (func inv) (args inv) (kwargs_or_empty (kwargs inv)) in
  (k ∈ _VIEW_OPS → p' = p ∧ t = 0%Qc ∧ symbolic = Ok res)
  ∧ (k ∉ _VIEW_OPS →
     (kernel_runs p' = (kernel_runs p + 6)%nat
      ∧ _no_fallback_kernel p' = _no_fallback_kernel p
      ∧ ∃ flat_args, (t = elapsed_time w (func inv) flat_args / Z2Qc 3)%Qc
                     ∧ returns (run_real w (func inv) flat_args))
     ∨ (t = 0%Qc ∧ k ∈ _no_fallback_kernel p' ∧ symbolic = Ok res)).
Proof.
  intros Hb k symbolic.
  destruct (cls_fake_mode p) as [fm|] eqn:Hfm;
    [|rewrite (benchmark_no_fake_mode _ _ _ Hfm) in Hb; discriminate].
  rewrite (benchmark_unfold _ _ _ _ Hfm) in Hb. fold k in Hb.
  destruct (decide (k ∉ _VIEW_OPS)) as [Hv|Hv].
  - split; [intros ?; done|]. intros _.
    pose proof (framed_fallback w (func inv) (args inv) (kwargs inv)
                  NotImplementedError p) as [_ Hnf].
    destruct (_maybe_run_and_benchmark_fallback_kernel _ _ _ _ _ p)
      as [p1 [[res1 t1]|e]] eqn:Hfb; simpl in *.
    + injection Hb as <- <- <-. left.
      unfold _maybe_run_and_benchmark_fallback_kernel in Hfb.
      destruct (bool_decide (inplace_view ∈ tags (func inv))); [discriminate|].
      apply M_bind_Ok in Hfb as (p2 & [[[flat impls] r] t2] & Hnd & Hfb).
      apply no_dispatch_block_Ok in Hnd as (Hruns & Hreal & -> & _).
      apply M_bind_Ok in Hfb as (p3 & res2 & Hmap & Hfb).
      injection Hfb as <- <- <-.
      pose proof (keeps_runs_tree_map_out
                    (omap as_tensor (flat ++ r)) impls (input_storages flat)
                    NotImplementedError r p2) as Hk.
      rewrite Hmap in Hk. simpl in Hk.
      split; [congruence|]. split; [exact Hnf|].
      exists flat. split; [done|]. rewrite Hreal. by eexists.
    + destruct (decide (e = NotImplementedError)); [|discriminate].
      rewrite run_symbolically_spec in Hb. fold symbolic in Hb.
      destruct symbolic as [res1|e1]; [|discriminate].
      injection Hb as <- <- <-. right. simpl. split; [done|].
      split; [|done]. by apply elem_of_union_l, elem_of_singleton.
  - split; [|intros ?; done]. intros _.
    rewrite run_symbolically_spec in Hb. fold symbolic in Hb.
    destruct symbolic as [res1|e1]; [|discriminate].
    by injection Hb as <- <- <-.
Qed.

Lemma benchmark_estimate_is_measured_or_zero_witness :
  kernel_runs (_benchmark_estimate Instances.world Instances.randn_call
                 Instances.proc).1 = 6%nat.
Proof.
  destruct (_benchmark_estimate Instances.world Instances.randn_call
              Instances.proc) as [p' [[res t]|e]] eqn:E.
  - destruct (benchmark_estimate_is_measured_or_zero Instances.world
                Instances.randn_call Instances.proc p' res t E) as [_ H].
    destruct H as [(Hk & _)|(_ & Hin & _)].
    + apply (bool_decide_unpack _). by vm_compute.
    + simpl. exact Hk.
    + exfalso. vm_compute in E. injection E as <- _ _.
      revert Hin. apply (bool_decide_unpack _). by vm_compute.
  - exfalso. vm_compute in E. discriminate.
Defined.

(** ** Realization and mapping back *)

(** How [to_real_tensor] relates an operand to what it returns, given the
    final alias map: a fake tensor of the class's fake mode becomes a real
    tensor with the same metadata, recorded in the alias map under its
    identity; anything else is passed through. *)
Definition realized_as (fm : positive) (inp_impls : AliasMap) (e e' : leaf) : Prop :=
  if is_our_fake fm e then
    ∃ t out, e = LTensor t ∧ e' = LTensor out
             ∧ fake_mode out = None
             ∧ t_dtype out = t_dtype t ∧ shape out = shape t
             ∧ nbytes out = nbytes t ∧ is_sparse out = is_sparse t
             ∧ inp_impls !! obj_id out = Some t
  else e' = e.

(** The invariant of the realization loop: the operands done so far are
    realized, every recorded identity is below the identity counter, and
    every recorded operand is a fake tensor of the class's fake mode. *)
Definition realize_inv (fm : positive) (done : list leaf)
    (acc : list leaf * AliasMap) (p : Proc) : Prop :=
  Forall2 (realized_as fm acc.2) done acc.1
  ∧ (∀ i, is_Some (acc.2 !! i) → (i < next_id p)%positive)
  ∧ (∀ i t, acc.2 !! i = Some t → fake_mode t = Some fm).

Lemma realized_as_insert fm (impls : AliasMap) i t e e' :
  impls !! i = None →
  realized_as fm impls e e' → realized_as fm (<[i := t]> impls) e e'.
Proof.
  intros Hi. unfold realized_as. destruct (is_our_fake fm e); [|done].
  intros (t0 & out & -> & -> & H1 & H2 & H3 & H4 & H5 & H6).
  exists t0, out. repeat split; try done.
  rewrite lookup_insert_ne; [done|]. intros E. rewrite E in Hi. congruence.
Qed.

Lemma to_real_tensor_inv w live fm done acc e p p1 acc1 :
  cls_fake_mode p = Some fm →
  realize_inv fm done acc p →
  to_real_tensor w live acc e p = (p1, Ok acc1) →
  realize_inv fm (done ++ [e]) acc1 p1.
Proof.
  intros Hfm (Hd & Hlt & Hfk). unfold to_real_tensor.
  intros H. apply M_bind_Ok in H as (p2 & fm' & Hg & H).
  unfold get_cls_fake_mode in Hg. rewrite Hfm in Hg. injection Hg as <- <-.
  assert (Hpass : is_our_fake fm e = false →
                  realize_inv fm (done ++ [e]) (acc.1 ++ [e], acc.2) p).
  { intros Hno. split; [|by split]. simpl. apply Forall2_app; [done|].
    constructor; [|constructor]. unfold realized_as. by rewrite Hno. }
  destruct e as [t|z]; [|injection H as <- <-; by apply Hpass].
  destruct (is_our_fake fm (LTensor t)) eqn:Hour;
    [|injection H as <- <-; by apply Hpass].
  clear Hpass.
  apply M_bind_Ok in H as (p3 & out & Hrl & H). injection H as <- <-.
  unfold real_like in Hrl. destruct (alloc_failure w t); [discriminate|].
  apply M_bind_Ok in Hrl as (p4 & i & Hi & Hrl).
  unfold fresh_id in Hi. injection Hi as <- <-.
  apply M_bind_Ok in Hrl as (p5 & [] & Hm & Hrl).
  injection Hm as <-. injection Hrl as <- <-. simpl.
  set (i := Pos.max (next_id p) (Pos.succ (max_id live))).
  assert (Hnone : acc.2 !! i = None).
  { destruct (acc.2 !! i) eqn:E; [|done].
    assert (i < next_id p)%positive by (apply Hlt; by eexists). lia. }
  split; [|split]; simpl.
  - apply Forall2_app.
    + eapply Forall2_impl; [exact Hd|]. intros x y. by apply realized_as_insert.
    + constructor; [|constructor]. unfold realized_as. rewrite Hour.
      eexists t, _. repeat split; try done. simpl. by rewrite lookup_insert_eq.
  - intros j [t' Hj]. destruct (decide (j = i)) as [->|Hne]; [lia|].
    rewrite lookup_insert_ne in Hj by done.
    assert (j < next_id p)%positive by (apply Hlt; by eexists). lia.
  - intros j t' Hj. destruct (decide (j = i)) as [->|Hne].
    + rewrite lookup_insert_eq in Hj. injection Hj as <-.
      simpl in Hour. by apply bool_decide_eq_true_1 in Hour.
    + rewrite lookup_insert_ne in Hj by done. by eapply Hfk.
Qed.

Lemma realize_keeps_inv w live fm flat : ∀ done acc p p1 acc1,
  cls_fake_mode p = Some fm →
  realize_inv fm done acc p →
  realize w live acc flat p = (p1, Ok acc1) →
  realize_inv fm (done ++ flat) acc1 p1.
Proof.
  induction flat as [|e flat IH]; intros done acc p p1 acc1 Hfm Hinv; simpl.
  - intros [= <- <-]. by rewrite app_nil_r.
  - intros H. apply M_bind_Ok in H as (p2 & acc2 & Ht & H).
    pose proof (framed_to_real_tensor w live acc e p) as [Hf _].
    rewrite Ht in Hf. simpl in Hf.
    pose proof (to_real_tensor_inv w live fm done acc e p p2 acc2 Hfm Hinv Ht) as Hi.
    rewrite (cons_middle e done flat), app_assoc.
    apply (IH (done ++ [e]) acc2 p2 p1 acc1); [congruence | exact Hi | exact H].
Qed.



(** How [map_out] relates a real output to what it returns: a recorded
    realization becomes the fake operand it stands for, any other tensor a
    new fake tensor of the class's fake mode with the same metadata, and a
    non-tensor is passed through. *)
Definition mapped_back (fm : positive) (inp_impls : AliasMap) (e e' : leaf) : Prop :=
  match e with
  | LTensor t =>
      match inp_impls !! obj_id t with
      | Some fake => e' = LTensor fake
      | None =>
          ∃ t', e' = LTensor t' ∧ fake_mode t' = Some fm
                ∧ t_dtype t' = t_dtype t ∧ shape t' = shape t
                ∧ nbytes t' = nbytes t ∧ is_sparse t' = is_sparse t
      end
  | LScalar _ => e' = e
  end.

Lemma map_out_Ok live impls st ex e p p' e' fm :
  cls_fake_mode p = Some fm →
  map_out live impls st ex e p = (p', Ok e') →
  mapped_back fm impls e e' ∧ unsupported_alias impls st e = false.
Proof.
  intros Hfm. unfold map_out, mapped_back.
  destruct (unsupported_alias impls st e); [discriminate|].
  destruct e as [t|z]; [|by intros [= <- <-]].
  destruct (impls !! obj_id t); [by intros [= <- <-]|].
  intros H. apply M_bind_Ok in H as (p1 & t' & Hfr & H). injection H as <- <-.
  unfold from_real_tensor in Hfr.
  apply M_bind_Ok in Hfr as (p2 & fm' & Hg & Hfr).
  unfold get_cls_fake_mode in Hg. rewrite Hfm in Hg. injection Hg as <- <-.
  apply M_bind_Ok in Hfr as (p3 & i & _ & Hfr). injection Hfr as <- <-.
  split; [|done]. by eexists.
Qed.

Lemma tree_map_out_Ok live impls st ex fm r : ∀ p p' res,
  cls_fake_mode p = Some fm →
  tree_map_out live impls st ex r p = (p', Ok res) →
  Forall2 (mapped_back fm impls) r res
  ∧ Forall (fun e => unsupported_alias impls st e = false) r.
Proof.
  induction r as [|e r IH]; intros p p' res Hfm; simpl.
  - intros [= <- <-]. split; constructor.
  - intros H. apply M_bind_Ok in H as (p1 & e' & He & H).
    apply M_bind_Ok in H as (p2 & res' & Hr & H). injection H as <- <-.
    pose proof (framed_map_out live impls st ex e p) as [Hf _].
    rewrite He in Hf. simpl in Hf.
    destruct (map_out_Ok _ _ _ _ _ _ _ _ fm Hfm He) as [Hm Hu].
    destruct (IH p1 p2 res' ltac:(congruence) Hr) as [IH1 IH2].
    split; by constructor.
Qed.

Lemma no_dispatch_block_realize w f a kw p p1 flat impls r t :
  no_dispatch_block w f a kw p = (p1, Ok (flat, impls, r, t)) →
  ∃ p0, realize w (omap as_tensor (tree_flatten_args a (kwargs_or_empty kw)))
          ([], ∅) (tree_flatten_args a (kwargs_or_empty kw)) p
        = (p0, Ok (flat, impls)).
Proof.
  unfold no_dispatch_block. intros H.
  apply M_bind_Ok in H as (p2 & [flat' impls'] & Hr & H).
  apply M_bind_Ok in H as (p3 & [] & _ & H).
  apply M_bind_Ok in H as (p4 & r' & _ & H).
  apply M_bind_Ok in H as (p5 & [] & _ & H).
  apply M_bind_Ok in H as (p6 & [] & _ & H).
  injection H as _ <- <- _ _. by exists p2.
Qed.

(** X16.  When the fallback kernel returns, it returns no real tensor: each
    real output has been mapped to the fake operand it is the realization
    of (the alias is kept), or to a new fake tensor of the class's fake mode
    with the same precision, shape, storage size and sparsity, or, if it is
    not a tensor, to itself; and no output was an unsupported alias. *)
Theorem fallback_returns_fake_tensors
    (w : World) (f : OpOverload) (a : list leaf)
    (kw : option (list (string * leaf))) (ex : exn)
    (p p' : Proc) (res : list leaf) (t : Qc) (fm : positive) :
  cls_fake_mode p = Some fm →
  _maybe_run_and_benchmark_fallback_kernel w f a kw ex p = (p', Ok (res, t)) →
  Forall (fun x => ∀ x', x = LTensor x' → fake_mode x' = Some fm) res
  ∧ ∃ flat_args inp_impls r,
      run_real w f flat_args = Ok r
      ∧ Forall2 (mapped_back fm inp_impls) r res
      ∧ Forall (fun e => unsupported_alias inp_impls (input_storages flat_args) e
                         = false) r.
Proof.
  intros Hfm. unfold _maybe_run_and_benchmark_fallback_kernel.
  destruct (bool_decide (inplace_view ∈ tags f)); [discriminate|].
  intros H. apply M_bind_Ok in H as (p1 & [[[flat impls] r] t1] & Hnd & H).
  apply M_bind_Ok in H as (p2 & res' & Hmap & H). injection H as <- <- <-.
  pose proof (framed_no_dispatch_block w f a kw p) as [Hf _].
  rewrite Hnd in Hf. simpl in Hf.
  destruct (no_dispatch_block_realize _ _ _ _ _ _ _ _ _ _ Hnd) as [p0 Hre].
  assert (Hinv0 : realize_inv fm [] ([], ∅) p).
  { split; [constructor|]. split.
    - intros i [x Hi]. simpl in Hi. by rewrite lookup_empty in Hi.
    - intros i x Hi. simpl in Hi. by rewrite lookup_empty in Hi. }
  pose proof (realize_keeps_inv w _ fm _ [] _ p p0 _ Hfm Hinv0 Hre)
    as (_ & _ & Hfk). simpl in Hfk.
  destruct (no_dispatch_block_Ok _ _ _ _ _ _ _ _ _ _ Hnd) as (_ & Hreal & _).
  assert (Hfm1 : cls_fake_mode p1 = Some fm) by congruence.
  destruct (tree_map_out_Ok _ _ _ _ fm _ _ _ _ Hfm1 Hmap) as [Hmb Hua].
  split; [|by exists flat, impls, r].
  clear Hmap Hua Hreal Hnd Hre.
  induction Hmb as [|e e' r res Hm _ IH]; constructor; [|exact IH].
  intros x' ->. unfold mapped_back in Hm. destruct e as [x|z]; [|discriminate].
  destruct (impls !! obj_id x) as [fake|] eqn:E.
  - injection Hm as <-. by eapply Hfk.
  - destruct Hm as (x'' & [= <-] & Hx & _). exact Hx.
Qed.

Lemma fallback_returns_fake_tensors_witness :
  Forall (fun x => ∀ x', x = LTensor x' → fake_mode x' = Some 1%positive)
    (match (_maybe_run_and_benchmark_fallback_kernel Instances.world
              Instances.aten_randn [LScalar 128; LScalar 32] (Some [])
              NotImplementedError Instances.proc).2 with
     | Ok (res, _) => res
     | Raise _ => []
     end).
Proof.
  destruct (_maybe_run_and_benchmark_fallback_kernel Instances.world
              Instances.aten_randn [LScalar 128; LScalar 32] (Some [])
              NotImplementedError Instances.proc)
    as [p' [[res t]|e]] eqn:E; [|constructor].
  simpl.
  destruct (fallback_returns_fake_tensors Instances.world Instances.aten_randn
              [LScalar 128; LScalar 32] (Some []) NotImplementedError
              Instances.proc p' res t 1%positive eq_refl E) as [H _].
  exact H.
Defined.

(** ** Reporting *)

(** [mod_fqn.count(".")]: the number of dots in a qualified name. *)
Definition count_dots (fqn : string) : Z :=
  Z.of_nat (length (filter (fun c => c = "."%char)
                           (String.list_ascii_of_string fqn))).

(** [mod_depth = mod_fqn.count(".") + 1] *)
Definition mod_depth (fqn : string) : Z := count_dots fqn + 1.

(** What [display_modulewise_stats(depth)] prints, without the text
    layout: the names under the two headers, in printing order, and the
    statistics rows, each scope with the forward and the backward time read
    by [runtimes.get(key, 0.0)].  The rows are given as a finite map: the
    order in which the dictionary yields them is not part of the model. *)
Record Report : Type := mkReport {
  pre_forward_names : list string;
  pre_backward_names : list string;
  rows : gmap string (Qc * Qc)
}.

(** [display_modulewise_stats(depth)]; a name is skipped when
    [mod_depth > depth]. *)
Definition display_modulewise_stats (self : Estimator) (depth : Z) : Report :=
  mkReport
    (filter (fun fqn => ¬ (mod_depth fqn > depth)) (mod_fw_pre_order self))
    (filter (fun fqn => ¬ (mod_depth fqn > depth)) (mod_bw_pre_order self))
    (map_imap (fun fqn (runtimes : gmap string Qc) =>
                 if decide (mod_depth fqn > depth) then None
                 else Some (default 0%Qc (runtimes !! "fw"),
                            default 0%Qc (runtimes !! "bw")))
              (mod_runtimes self)).

Lemma filter_depth_mono (l : list string) (d d' : Z) :
  d ≤ d' →
  filter (fun fqn => ¬ (mod_depth fqn > d)) l
  `sublist_of` filter (fun fqn => ¬ (mod_depth fqn > d')) l.
Proof.
  intros Hd.
  rewrite <- (list_filter_filter_l (fun fqn => ¬ (mod_depth fqn > d))
                (fun fqn => ¬ (mod_depth fqn > d')) l) by (intros x; lia).
  apply sublist_filter.
Qed.

(** X17.  [display_modulewise_stats(depth)] lists a logged scope exactly
    when its qualified name has fewer than [depth] dots, keeps the logged
    order, and shows for each recorded scope of that depth its forward and
    backward totals (0 for a phase never recorded).  With [depth <= 0]
    nothing is listed; raising the depth only adds names. *)
Theorem display_filters_by_depth (self : Estimator) (depth : Z) :
  let report := display_modulewise_stats self depth in
  (∀ fqn, fqn ∈ pre_forward_names report
          ↔ fqn ∈ mod_fw_pre_order self ∧ count_dots fqn < depth)
  ∧ (∀ fqn, fqn ∈ pre_backward_names report
            ↔ fqn ∈ mod_bw_pre_order self ∧ count_dots fqn < depth)
  ∧ pre_forward_names report `sublist_of` mod_fw_pre_order self
  ∧ pre_backward_names report `sublist_of` mod_bw_pre_order self
  ∧ (∀ fqn fw bw,
       rows report !! fqn = Some (fw, bw)
       ↔ is_Some (mod_runtimes self !! fqn) ∧ count_dots fqn < depth
         ∧ fw = scope_runtime (mod_runtimes self) fqn "fw"
         ∧ bw = scope_runtime (mod_runtimes self) fqn "bw")
  ∧ (depth ≤ 0 →
     pre_forward_names report = [] ∧ pre_backward_names report = []
     ∧ rows report = ∅)
  ∧ (∀ depth', depth ≤ depth' →
       pre_forward_names report
       `sublist_of` pre_forward_names (display_modulewise_stats self depth')).
Proof.
  intros report. subst report. unfold display_modulewise_stats. simpl.
  assert (Hpos : ∀ fqn, 0 ≤ count_dots fqn) by (intros; unfold count_dots; lia).
  split; [|split; [|split; [|split; [|split; [|split]]]]].
  - intros fqn. rewrite list_elem_of_filter. unfold mod_depth.
    split; intros [H1 H2]; split; try done; lia.
  - intros fqn. rewrite list_elem_of_filter. unfold mod_depth.
    split; intros [H1 H2]; split; try done; lia.
  - apply sublist_filter.
  - apply sublist_filter.
  - intros fqn fw bw. rewrite map_lookup_imap. unfold scope_runtime, mod_depth.
    destruct (mod_runtimes self !! fqn) as [runtimes|] eqn:E; simpl.
    + destruct (decide (count_dots fqn + 1 > depth)) as [Hd|Hd].
      * split; [discriminate|]. intros (_ & H & _). lia.
      * split.
        -- intros [= <- <-]. split; [by eexists|]. split; [lia|done].
        -- intros (_ & _ & -> & ->). done.
    + split; [discriminate|]. intros ([x Hx] & _). discriminate.
  - intros Hd. split; [|split].
    + induction (mod_fw_pre_order self) as [|x l IH]; [done|].
      rewrite filter_cons, decide_False; [done|].
      unfold mod_depth. specialize (Hpos x). lia.
    + induction (mod_bw_pre_order self) as [|x l IH]; [done|].
      rewrite filter_cons, decide_False; [done|].
      unfold mod_depth. specialize (Hpos x). lia.
    + apply map_eq. intros fqn. rewrite map_lookup_imap, lookup_empty.
      destruct (mod_runtimes self !! fqn); simpl; [|done].
      rewrite decide_True; [done|]. unfold mod_depth. specialize (Hpos fqn). lia.
  - intros depth' Hd. by apply filter_depth_mono.
Qed.
